(** * Tuning a scikit-learn estimator with skopt: the example notebook

    A shallow embedding of [examples/hyperparameter-optimization.ipynb].
    The notebook is glue code: every statement is a call into scikit-learn,
    numpy or skopt.  The embedding keeps the notebook's own text (the cells,
    the [space] list, the [objective] closure) as Rocq definitions and takes
    what the libraries compute as a parameter, the class [Library].

    Conventions.
    - Python floats are idealised as exact rationals [Q]; ints are [Z].
    - A Python object is its attribute dictionary, [gmap string value];
      objects live in a heap and are referred to by location, so that the
      estimator [reg] shared by all calls of [objective] is one heap cell.
    - A run is a function from a [world] (heap and call log) to an outcome
      and a new world.  An outcome is a value or a raised exception.
    - The call log records every call that leaves the notebook, in program
      order; a call that runs notebook code (the optimiser calling the
      objective) records the calls made meanwhile as its children. *)

From Stdlib Require Import ZArith QArith Qabs Lia.
From stdpp Require Import base gmap strings list.

Close Scope Q_scope.
Open Scope Z_scope.
Open Scope string_scope.
Open Scope list_scope.

(** ** Values *)

Inductive value :=
| VInt (z : Z)
| VFloat (q : Q)
| VStr (s : string).

(** A point of the search space, [x] in [objective(x)]. *)
Abbreviation point := (list value).

(** Python exceptions: the class name and the message. *)
Inductive exn := Exception (cls msg : string).

Inductive result (A : Type) :=
| Ok (a : A)
| Raise (e : exn).
Arguments Ok {A} a.
Arguments Raise {A} e.

(** numpy arrays, as far as the notebook looks at them: [X.shape[1]]. *)
Record ndarray := { shape : list Z; flat : list Q }.

(** The object returned by [load_boston()]: [boston.data], [boston.target]. *)
Record Bunch := { data : ndarray; target : ndarray }.

(** Modelled from the spec: the classes [Integer] and [Real] of [skopt.space]
    are not under src/.  The spec calls the search space "a bounded list of
    parameter dimensions"; a dimension carries its two bounds and its name,
    a [Real] one also the prior it is sampled from. *)
Inductive Dimension :=
| Integer (low high : Z) (name : string)
| Real (low high : Q) (prior : string) (name : string).

Definition name (d : Dimension) : string :=
  match d with
  | Integer _ _ n => n
  | Real _ _ _ n => n
  end.

Definition low (d : Dimension) : Q :=
  match d with
  | Integer l _ _ => inject_Z l
  | Real l _ _ _ => l
  end.

Definition high (d : Dimension) : Q :=
  match d with
  | Integer _ h _ => inject_Z h
  | Real _ h _ _ => h
  end.

(** The result object of the optimiser: [res_gp.x], [res_gp.fun] and the
    evaluations it was computed from. *)
Record OptimizeResult := {
  res_x : point;
  res_fun : Q;
  x_iters : list point;
  func_vals : list Q
}.

(** The right operand of Python's [template % args], kept unformatted. *)
Inductive formatted := Percent (template : string) (args : list value).

(** ** The call log *)

Set Warnings "-register-all".

Definition loc := nat.

Inductive event :=
| CallLoadBoston
| CallGradientBoostingRegressor (kw : gmap string value)
| CallDimension (d : Dimension)
| CallUseNamedArgs (dimensions : list Dimension)
| CallSetParams (self : loc) (params : gmap string value)
| CallCrossValScore (estimator : loc) (X y : ndarray)
    (cv n_jobs : Z) (scoring : string)
| CallMean (a : list Q)
| CallGpMinimize (func : string) (dimensions : list Dimension)
    (n_calls random_state : Z) (children : list event)
| CallFunc (func : string) (x : point) (children : list event)
| Display (out : formatted)
| CallPrint (out : formatted)
| CallPlotConvergence (res : OptimizeResult).

(** ** Worlds and runs *)

Record world := {
  heap : list (gmap string value);
  log : list event
}.

Definition M (A : Type) : Type := world -> result A * world.

Definition ret {A} (a : A) : M A := fun w => (Ok a, w).

Definition raise {A} (e : exn) : M A := fun w => (Raise e, w).

Definition bind {A B} (m : M A) (k : A -> M B) : M B :=
  fun w =>
    match m w with
    | (Ok a, w') => k a w'
    | (Raise e, w') => (Raise e, w')
    end.

Declare Scope run_scope.
Delimit Scope run_scope with run.
Notation "x <- m ;; k" := (bind m (fun x => k))
  (at level 100, m at next level, right associativity) : run_scope.
Notation "m ;; k" := (bind m (fun _ => k))
  (at level 100, right associativity) : run_scope.
Open Scope run_scope.

Definition lift {A} (r : result A) : M A := fun w => (r, w).

Definition emit (e : event) : M unit :=
  fun w => (Ok tt, {| heap := heap w; log := log w ++ [e] |}).

(** Run [m] with a log of its own and record what it logged as the children
    of one event of the caller's log. *)
Definition nested {A} (wrap : list event -> event) (m : M A) : M A :=
  fun w =>
    let '(r, w') := m {| heap := heap w; log := [] |} in
    (r, {| heap := heap w'; log := log w ++ [wrap (log w')] |}).

Definition alloc (o : gmap string value) : M loc :=
  fun w => (Ok (length (heap w)), {| heap := heap w ++ [o]; log := log w |}).

Definition deref (l : loc) : M (gmap string value) :=
  fun w =>
    match heap w !! l with
    | Some o => (Ok o, w)
    | None => (Raise (Exception "ReferenceError" "dangling reference"), w)
    end.

Definition store (l : loc) (o : gmap string value) : M unit :=
  fun w => (Ok tt, {| heap := <[l := o]> (heap w); log := log w |}).

(** [seq[i]] for a Python sequence. *)
Definition getitem {A} (l : list A) (i : nat) : M A :=
  match l !! i with
  | Some a => ret a
  | None => raise (Exception "IndexError" "index out of range")
  end.

(** Python function objects: the name and the code. *)
Record function (A : Type) := {
  fn_name : string;
  fn_call : point -> M A
}.
Arguments fn_name {A} _.
Arguments fn_call {A} _ _.

(** A Python function that takes keyword arguments only, as one defined
    with a double-starred parameter is. *)
Record kwfunction (A : Type) := {
  kw_name : string;
  kw_call : gmap string value -> M A
}.
Arguments kw_name {A} _.
Arguments kw_call {A} _ _.

(** ** The libraries

    What scikit-learn and the optimiser compute is a parameter.  A method
    that is handed an object may change it, also when it raises: it returns
    the object's new attributes together with its outcome. *)

Class Library := {
  (** [sklearn.datasets.load_boston()] *)
  lib_load_boston : result Bunch;
  (** [GradientBoostingRegressor] called with keyword arguments: the
      attributes of the new object *)
  lib_GradientBoostingRegressor :
    gmap string value -> result (gmap string value);
  (** [estimator.set_params] called with keyword arguments [params] *)
  lib_set_params :
    gmap string value -> gmap string value ->
    gmap string value * result unit;
  (** [cross_val_score(estimator, X, y, cv=, n_jobs=, scoring=)] *)
  lib_cross_val_score :
    gmap string value -> ndarray -> ndarray -> Z -> Z -> string ->
    gmap string value * result (list Q);
  (** the point the optimiser evaluates next, from the space, the seed and
      the evaluations made so far *)
  lib_ask : list Dimension -> Z -> list (point * Q) -> point;
  (** [skopt.plots.plot_convergence(res)] *)
  lib_plot_convergence : OptimizeResult -> result unit
}.

(** ** Calls into the libraries

    Each wrapper logs the call, then lets the library act.  The call is
    logged first, so a call that raises is in the log too. *)

Section Notebook.

Context {L : Library}.

Definition load_boston : M Bunch :=
  emit CallLoadBoston ;;
  lift lib_load_boston.

Definition GradientBoostingRegressor (kw : gmap string value) : M loc :=
  emit (CallGradientBoostingRegressor kw) ;;
  o <- lift (lib_GradientBoostingRegressor kw) ;;
  alloc o.

Definition set_params (self : loc) (params : gmap string value) : M unit :=
  emit (CallSetParams self params) ;;
  o <- deref self ;;
  store self (fst (lib_set_params o params)) ;;
  lift (snd (lib_set_params o params)).

Definition cross_val_score (estimator : loc) (X y : ndarray)
    (cv n_jobs : Z) (scoring : string) : M (list Q) :=
  emit (CallCrossValScore estimator X y cv n_jobs scoring) ;;
  o <- deref estimator ;;
  store estimator (fst (lib_cross_val_score o X y cv n_jobs scoring)) ;;
  lift (snd (lib_cross_val_score o X y cv n_jobs scoring)).

(** [np.mean] of a one-dimensional array, in exact arithmetic.  (For the
    empty array numpy answers nan; here the quotient by zero is 0.) *)
Definition Qsum (a : list Q) : Q := foldr Qplus 0%Q a.

Definition mean (a : list Q) : Q :=
  (Qsum a / inject_Z (Z.of_nat (length a)))%Q.

Definition np_mean (a : list Q) : M Q :=
  emit (CallMean a) ;;
  ret (mean a).

Definition display (out : formatted) : M unit := emit (Display out).

Definition print (out : formatted) : M unit := emit (CallPrint out).

Definition plot_convergence (res : OptimizeResult) : M unit :=
  emit (CallPlotConvergence res) ;;
  lift (lib_plot_convergence res).

(** Calling a dimension's constructor. *)
Definition construct (d : Dimension) : M Dimension :=
  emit (CallDimension d) ;;
  ret d.

(** A list display [[d1, d2, ...]] evaluates its items from left to right. *)
Fixpoint list_display (ds : list Dimension) : M (list Dimension) :=
  match ds with
  | [] => ret []
  | d :: ds' =>
    d' <- construct d ;;
    ds'' <- list_display ds' ;;
    ret (d' :: ds'')
  end.

(** ** The decorator [use_named_args] *)

(** The dictionary in which the i-th name is bound to the i-th value; as in
    a Python dict, a later binding of a name replaces an earlier one. *)
Definition arg_dict (dimensions : list Dimension) (x : point)
  : gmap string value :=
  foldl (fun d nv => <[fst nv := snd nv]> d) ∅ (zip (name <$> dimensions) x).

Definition wrapper {A} (dimensions : list Dimension) (func : kwfunction A)
  : function A :=
  {| fn_name := kw_name func;
     fn_call := fun x => kw_call func (arg_dict dimensions x) |}.

(** Modelled from the spec: [skopt.utils.use_named_args] is not under src/.
    The notebook says of it: "this decorator allows your objective function
    to receive the parameters as keyword arguments".  Applied to the
    dimensions and then to a function of keyword arguments, it gives a
    function of one point, which calls the decorated function with the i-th
    coordinate of the point bound to the name of the i-th dimension. *)
Definition use_named_args {A} (dimensions : list Dimension)
    (func : kwfunction A) : M (function A) :=
  emit (CallUseNamedArgs dimensions) ;;
  ret (wrapper dimensions func).

(** ** The optimiser [gp_minimize] *)

(** The best evaluation: the first one with the least value. *)
Definition best (h : point * Q) (t : list (point * Q)) : point * Q :=
  foldl (fun b c => if Qle_bool (snd b) (snd c) then b else c) h t.

Definition create_result (seen : list (point * Q)) : result OptimizeResult :=
  match seen with
  | [] => Raise (Exception "ValueError" "no evaluation was made")
  | h :: t =>
    Ok {| res_x := fst (best h t);
          res_fun := snd (best h t);
          x_iters := fst <$> seen;
          func_vals := snd <$> seen |}
  end.

(** [n] evaluations of [func], one after the other, each at the point the
    library asks for after what it has seen. *)
Fixpoint evaluations (func : function Q) (dimensions : list Dimension)
    (random_state : Z) (n : nat) (seen : list (point * Q))
  : M (list (point * Q)) :=
  match n with
  | O => ret seen
  | S n' =>
    let x := lib_ask dimensions random_state seen in
    fx <- nested (CallFunc (fn_name func) x) (fn_call func x) ;;
    evaluations func dimensions random_state n' (seen ++ [(x, fx)])
  end.

(** Modelled from the spec: [skopt.gp_minimize] is not under src/.  The spec
    describes it as surrogate-model-based optimization, "an optimization
    strategy that fits a probabilistic model of the objective to choose
    promising next evaluation points", of an objective that maps "a candidate
    parameter configuration to a scalar score to be minimized"; the notebook
    reads the best configuration and its score from the result ([res_gp.x],
    [res_gp.fun]).  So: [n_calls] evaluations of the objective, each at a
    point chosen from the evaluations before it, and the best of them as the
    result.  How points are chosen is the library's ([lib_ask]). *)
Definition gp_minimize (func : function Q) (dimensions : list Dimension)
    (n_calls random_state : Z) : M OptimizeResult :=
  nested (CallGpMinimize (fn_name func) dimensions n_calls random_state)
    (seen <- evaluations func dimensions random_state (Z.to_nat n_calls) [] ;;
     lift (create_result seen)).

(** ** The notebook *)

(** In [3]: the list of hyper-parameters to optimise.  [n_features] is
    [X.shape[1]] of the dataset. *)
Definition space (n_features : Z) : list Dimension :=
  [ Integer 1 5 "max_depth";
    Real (10 ^ (-5))%Q (10 ^ 0)%Q "log-uniform" "learning_rate";
    Integer 1 n_features "max_features";
    Integer 2 100 "min_samples_split";
    Integer 1 100 "min_samples_leaf" ].

(** In [3]: [def objective], before decoration.  [reg], [X] and [y] are the
    notebook's globals the body refers to. *)
Definition objective_def (reg : loc) (X y : ndarray) : kwfunction Q :=
  {| kw_name := "objective";
     kw_call := fun params =>
       set_params reg params ;;
       scores <- cross_val_score reg X y 5 (-1) "neg_mean_absolute_error" ;;
       m <- np_mean scores ;;
       ret (- m)%Q |}.

(** The value the notebook binds to the name [objective]: the decorated
    function. *)
Definition objective (reg : loc) (X y : ndarray) (space : list Dimension)
  : function Q :=
  wrapper space (objective_def reg X y).

(** In [5]: the template of the printout. *)
Definition best_parameters : string :=
  "Best parameters:
- max_depth=%d
- learning_rate=%.6f
- max_features=%d
- min_samples_split=%d
- min_samples_leaf=%d".

(** In [4]: the template of the cell's value. *)
Definition best_score : string := "Best score=%.4f".

(** In [2]: the keyword arguments the estimator is constructed with. *)
Definition reg_kwargs : gmap string value :=
  <["n_estimators" := VInt 50]> (<["random_state" := VInt 0]> ∅).

(** The cells, in the order the notebook has them. *)
Definition notebook : M unit :=
  (* In [2] *)
  boston <- load_boston ;;
  let X := data boston in
  let y := target boston in
  n_features <- getitem (shape X) 1 ;;
  reg <- GradientBoostingRegressor reg_kwargs ;;
  (* In [3] *)
  space <- list_display (space n_features) ;;
  objective <- use_named_args space (objective_def reg X y) ;;
  (* In [4] *)
  res_gp <- gp_minimize objective space 50 0 ;;
  display (Percent best_score [VFloat (res_fun res_gp)]) ;;
  (* In [5] *)
  x0 <- getitem (res_x res_gp) 0 ;;
  x1 <- getitem (res_x res_gp) 1 ;;
  x2 <- getitem (res_x res_gp) 2 ;;
  x3 <- getitem (res_x res_gp) 3 ;;
  x4 <- getitem (res_x res_gp) 4 ;;
  print (Percent best_parameters [x0; x1; x2; x3; x4]) ;;
  (* In [6] *)
  plot_convergence res_gp.

End Notebook.

(** Values to name what a run that stopped early never computed. *)
Definition no_result : OptimizeResult :=
  {| res_x := []; res_fun := 0%Q; x_iters := []; func_vals := [] |}.

Definition no_array : ndarray := {| shape := []; flat := [] |}.
(** ** A small library to run the notebook on

    A stand-in for the libraries that can be evaluated: a dataset of four
    rows, an estimator whose attributes are what it was given, and
    cross-validation scores that are a simple function of [max_depth] and
    [learning_rate]. *)

Definition toy_boston : Bunch :=
  {| data := {| shape := [4; 13]; flat := replicate 52 1%Q |};
     target := {| shape := [4]; flat := replicate 4 1%Q |} |}.

(** The parameters a gradient boosting regressor accepts, as far as the
    notebook names them. *)
Definition toy_valid_params : list string :=
  ["n_estimators"; "random_state"; "max_depth"; "learning_rate";
   "max_features"; "min_samples_split"; "min_samples_leaf"].

Definition toy_set_params (o params : gmap string value)
  : gmap string value * result unit :=
  if bool_decide (dom params ⊆ list_to_set toy_valid_params)
  then (params ∪ o, Ok tt)
  else (o, Raise (Exception "ValueError" "Invalid parameter for estimator")).

Definition attr (o : gmap string value) (k : string) : Q :=
  match o !! k with
  | Some (VInt z) => inject_Z z
  | Some (VFloat q) => q
  | _ => 0%Q
  end.

(** Per-fold mean absolute errors of the stand-in, one for each of five
    folds. *)
Definition toy_errors (o : gmap string value) : list Q :=
  (fun i : Z =>
     (Qabs (attr o "max_depth" - 3) + Qabs (attr o "learning_rate" - (1 # 10))
      + Qabs (i # 10))%Q) <$> [1; 2; 3; 4; 5].

Definition toy_cross_val_score (o : gmap string value) (X y : ndarray)
    (cv n_jobs : Z) (scoring : string)
  : gmap string value * result (list Q) :=
  if Qle_bool 1 (attr o "max_depth")
  then (o, Ok (Qopp <$> toy_errors o))
  else (o, Raise (Exception "ValueError"
                    "max_depth must be greater than zero")).

Definition toy_ask (dimensions : list Dimension) (random_state : Z)
    (seen : list (point * Q)) : point :=
  [ VInt (1 + Z.of_nat (length seen) mod 5);
    VFloat (1 # 10);
    VInt 13;
    VInt 2;
    VInt 1 ].

Definition toy : Library :=
  {| lib_load_boston := Ok toy_boston;
     lib_GradientBoostingRegressor := fun kw => Ok kw;
     lib_set_params := toy_set_params;
     lib_cross_val_score := toy_cross_val_score;
     lib_ask := toy_ask;
     lib_plot_convergence := fun _ => Ok tt |}.

Definition empty_world : world := {| heap := []; log := [] |}.


(** The estimator of the notebook, as the stand-in constructs it, alone in
    the heap. *)
Definition toy_reg : gmap string value := reg_kwargs.

Definition toy_world : world := {| heap := [toy_reg]; log := [] |}.

(** A configuration with the given [max_depth]. *)
Definition toy_point (max_depth : Z) : point :=
  [VInt max_depth; VFloat (1 # 10); VInt 13; VInt 2; VInt 1].

(** A short run of the optimizer on the stand-in: five evaluations, at
    [max_depth] 1 to 5. *)
Definition toy_run : result OptimizeResult * world :=
  gp_minimize (L := toy)
    (objective (L := toy) 0%nat (data toy_boston) (target toy_boston)
       (space 13))
    (space 13) 5 0 toy_world.

(** ** What is observed of a run *)

(** The three calls the body of [objective] makes at the point [x]. *)
Definition step_set_params (reg : loc) (sp : list Dimension) (x : point)
  : event :=
  CallSetParams reg (arg_dict sp x).

Definition step_cross_val_score (reg : loc) (X y : ndarray) : event :=
  CallCrossValScore reg X y 5 (-1) "neg_mean_absolute_error".

Definition step_mean (scores : list Q) : event := CallMean scores.

(** An event with all the events below it, in the order of the calls. *)
Fixpoint subevents (e : event) : list event :=
  e :: match e with
       | CallGpMinimize _ _ _ _ children => flat_map subevents children
       | CallFunc _ _ children => flat_map subevents children
       | _ => []
       end.

Definition all_events (evs : list event) : list event :=
  flat_map subevents evs.

Definition is_gp_minimize (e : event) : bool :=
  match e with
  | CallGpMinimize _ _ _ _ _ => true
  | _ => false
  end.

(** The parallelism flag a call passes, if it passes one. *)
Definition n_jobs_of (e : event) : option Z :=
  match e with
  | CallCrossValScore _ _ _ _ n_jobs _ => Some n_jobs
  | _ => None
  end.

(** The steps of the notebook's flow, and the step a top-level call
    belongs to. *)
Inductive step :=
| LoadDataset
| ConstructEstimator
| DeclareBounds
| DefineObjective
| InvokeOptimizer
| PrintResults
| PlotResults.

Definition step_of (e : event) : option step :=
  match e with
  | CallLoadBoston => Some LoadDataset
  | CallGradientBoostingRegressor _ => Some ConstructEstimator
  | CallDimension _ => Some DeclareBounds
  | CallUseNamedArgs _ => Some DefineObjective
  | CallGpMinimize _ _ _ _ _ => Some InvokeOptimizer
  | Display _ => Some PrintResults
  | CallPrint _ => Some PrintResults
  | CallPlotConvergence _ => Some PlotResults
  | _ => None
  end.

(** load dataset, construct estimator, declare parameter bounds (five
    dimensions), define the objective, invoke the optimizer, print (the
    best score, then the best parameters), plot. *)
Definition flow : list step :=
  [ LoadDataset; ConstructEstimator;
    DeclareBounds; DeclareBounds; DeclareBounds; DeclareBounds; DeclareBounds;
    DefineObjective; InvokeOptimizer; PrintResults; PrintResults;
    PlotResults ].

(** The calls of a run of the notebook that comes to its end, for a dataset
    of [n_features] columns, the calls [children] made by the optimizer, its
    result [res] and the coordinates [best] read from [res.x]. *)
Definition notebook_calls (n_features : Z) (children : list event)
    (res : OptimizeResult) (best : list value) : list event :=
  [ CallLoadBoston; CallGradientBoostingRegressor reg_kwargs ]
  ++ (CallDimension <$> space n_features)
  ++ [ CallUseNamedArgs (space n_features);
       CallGpMinimize "objective" (space n_features) 50 0 children;
       Display (Percent best_score [VFloat (res_fun res)]);
       CallPrint (Percent best_parameters best);
       CallPlotConvergence res ].

(** The events a call of the objective at [x] leaves: its three steps, or
    the first of them when one raises. *)
Definition objective_steps (reg : loc) (X y : ndarray) (sp : list Dimension)
    (x : point) (steps : list event) : Prop :=
  exists scores : list Q,
    steps `prefix_of`
      [ step_set_params reg sp x; step_cross_val_score reg X y;
        step_mean scores ].

(** The event of a call of the objective by the optimizer. *)
Definition objective_call (reg : loc) (X y : ndarray) (sp : list Dimension)
    (e : event) : Prop :=
  exists (x : point) (steps : list event),
    e = CallFunc "objective" x steps /\ objective_steps reg X y sp x steps.

(** The world after the calls [f(x)] for the points [xs], one after the
    other, whatever their outcomes. *)
Definition after {A} (f : function A) (xs : list point) (w : world) : world :=
  foldl (fun w x => snd (fn_call f x w)) w xs.

Section Contracts.

Context {L : Library}.

(** What the library does to the estimator [o] and answers, at [x]. *)
Definition set_at (sp : list Dimension) (o : gmap string value) (x : point)
  : gmap string value * result unit :=
  lib_set_params o (arg_dict sp x).

Definition cv_at (X y : ndarray) (sp : list Dimension)
    (o : gmap string value) (x : point)
  : gmap string value * result (list Q) :=
  lib_cross_val_score (fst (set_at sp o x)) X y 5 (-1)
    "neg_mean_absolute_error".

(** Contracts of the libraries that some properties of the notebook rest
    on.  None of them is a property of the notebook's code. *)

(** [set_params], when it returns, has set what it was given. *)
Definition set_params_sets : Prop :=
  forall o params : gmap string value,
    snd (lib_set_params o params) = Ok tt ->
    params ⊆ fst (lib_set_params o params).

(** [set_params] accepts the names of the space [sp]; it sets what it is
    given and leaves the other attributes as they are. *)
Definition set_params_overwrites (sp : list Dimension) : Prop :=
  forall (o : gmap string value) (x : point),
    length x = length sp ->
    lib_set_params o (arg_dict sp x) = (arg_dict sp x ∪ o, Ok tt).

(** [cross_val_score] fits clones: the estimator it is given is left as it
    is. *)
Definition cross_val_score_clones : Prop :=
  forall o X y cv n_jobs scoring,
    fst (lib_cross_val_score o X y cv n_jobs scoring) = o.

(** With [scoring="neg_mean_absolute_error"] the score of a fold is the
    negated mean absolute error of the fold. *)
Definition scores_negate_errors : Prop :=
  forall o X y cv n_jobs scores,
    snd (lib_cross_val_score o X y cv n_jobs "neg_mean_absolute_error")
      = Ok scores ->
    exists errors : list Q,
      scores = Qopp <$> errors /\ Forall (Qle 0) errors.

End Contracts.

(** The event of a call of the objective at [x] that made its three steps,
    the cross-validation answering [scores]. *)
Definition evaluation_event (reg : loc) (X y : ndarray) (sp : list Dimension)
    (call : point * list Q) : event :=
  CallFunc "objective" (fst call)
    [ step_set_params reg sp (fst call); step_cross_val_score reg X y;
      step_mean (snd call) ].

Section Report.

Context {L : Library}.

(** What the notebook does with the optimizer's result, from the value of
    In [4] to In [6]: the best score, the best parameters read from
    [res_gp.x[0]] to [res_gp.x[4]], the convergence plot. *)
Definition report (res_gp : OptimizeResult) : M unit :=
  display (Percent best_score [VFloat (res_fun res_gp)]) ;;
  x0 <- getitem (res_x res_gp) 0 ;;
  x1 <- getitem (res_x res_gp) 1 ;;
  x2 <- getitem (res_x res_gp) 2 ;;
  x3 <- getitem (res_x res_gp) 3 ;;
  x4 <- getitem (res_x res_gp) 4 ;;
  print (Percent best_parameters [x0; x1; x2; x3; x4]) ;;
  plot_convergence res_gp.

(** Given the space [dims], the optimizer asks for points of it: one
    coordinate for each dimension. *)
Definition asks_in_space (dims : list Dimension) : Prop :=
  forall (rs : Z) (seen : list (point * Q)),
    length (lib_ask dims rs seen) = length dims.

End Report.
(** ** Running the objective *)

Section Objective.

Context {L : Library}.

Variables (reg : loc) (X y : ndarray) (sp : list Dimension).

Lemma lookup_store (h : list (gmap string value)) (l : loc) o o' :
  h !! l = Some o -> <[l := o']> h !! l = Some o'.
Proof.
  intros Hl. apply list_lookup_insert_eq. eapply lookup_lt_Some; eauto.
Qed.

(** The run of one call of the objective, case by case. *)
Lemma objective_run x w o :
  heap w !! reg = Some o ->
  fn_call (objective reg X y sp) x w =
  match snd (set_at sp o x) with
  | Raise e =>
    (Raise e,
     {| heap := <[reg := fst (set_at sp o x)]> (heap w);
        log := log w ++ [step_set_params reg sp x] |})
  | Ok _ =>
    match snd (cv_at X y sp o x) with
    | Raise e =>
      (Raise e,
       {| heap := <[reg := fst (cv_at X y sp o x)]>
                    (<[reg := fst (set_at sp o x)]> (heap w));
          log := log w ++ [step_set_params reg sp x; step_cross_val_score reg X y] |})
    | Ok scores =>
      (Ok (- mean scores)%Q,
       {| heap := <[reg := fst (cv_at X y sp o x)]>
                    (<[reg := fst (set_at sp o x)]> (heap w));
          log := log w ++ [step_set_params reg sp x; step_cross_val_score reg X y;
                           step_mean scores] |})
    end
  end.
Proof.
  intros Hreg.
  unfold objective, wrapper, objective_def, cv_at, set_at; simpl.
  unfold set_params, cross_val_score, np_mean, bind, emit, deref, store,
    lift, ret; simpl.
  rewrite Hreg.
  destruct (lib_set_params o (arg_dict sp x)) as [o1 [[]|e]]; simpl; [|done].
  rewrite (lookup_store _ _ _ o1 Hreg).
  destruct (lib_cross_val_score o1 X y 5 (-1) "neg_mean_absolute_error")
    as [o2 [scores|e]]; simpl; rewrite <- !app_assoc; done.
Qed.

(** A call through a reference that is not in the heap stops at the first
    step. *)
Lemma objective_run_dangling x w :
  heap w !! reg = None ->
  fn_call (objective reg X y sp) x w =
  (Raise (Exception "ReferenceError" "dangling reference"),
   {| heap := heap w; log := log w ++ [step_set_params reg sp x] |}).
Proof.
  intros Hreg.
  unfold objective, wrapper, objective_def; simpl.
  unfold set_params, bind, emit, deref; simpl.
  by rewrite Hreg.
Qed.

(** A call that returns a value made both library calls, and both
    returned. *)
Lemma objective_propagates_errors_aux x w o :
  heap w !! reg = Some o ->
  forall v, fst (fn_call (objective reg X y sp) x w) = Ok v ->
    snd (set_at sp o x) = Ok tt /\
    exists scores,
      snd (cv_at X y sp o x) = Ok scores /\ v = (- mean scores)%Q.
Proof.
  intros Hreg v. rewrite (objective_run x w o Hreg).
  destruct (snd (set_at sp o x)) as [[]|e]; [|discriminate].
  destruct (snd (cv_at X y sp o x)) as [scores|e]; [|discriminate].
  simpl. intros Hv. split; [reflexivity|].
  exists scores. split; congruence.
Qed.

(** C1.  For every candidate configuration [x], a call of the objective
    makes exactly three steps, in this order: it sets the parameters of the
    estimator to the configuration ([set_params] with the coordinates of [x]
    under the names of the space), it runs 5-fold cross-validation of that
    estimator on the dataset, and it returns the negation of the mean of the
    per-fold scores. *)
Theorem objective_three_steps x w o scores :
  heap w !! reg = Some o ->
  snd (set_at sp o x) = Ok tt ->
  snd (cv_at X y sp o x) = Ok scores ->
  fst (fn_call (objective reg X y sp) x w) = Ok (- mean scores)%Q /\
  log (snd (fn_call (objective reg X y sp) x w)) =
    log w ++ [ CallSetParams reg (arg_dict sp x);
               CallCrossValScore reg X y 5 (-1) "neg_mean_absolute_error";
               CallMean scores ].
Proof.
  intros Hreg Hset Hcv.
  rewrite (objective_run x w o Hreg), Hset, Hcv.
  split; reflexivity.
Qed.

(** C6.  The objective has no error handling of its own: an error raised
    by [set_params] or by [cross_val_score] is the outcome of the call of
    the objective, unchanged, and the objective returns a value only when
    both calls returned. *)
Theorem objective_propagates_errors x w o :
  heap w !! reg = Some o ->
  (forall e, snd (set_at sp o x) = Raise e ->
     fst (fn_call (objective reg X y sp) x w) = Raise e) /\
  (forall e, snd (set_at sp o x) = Ok tt ->
     snd (cv_at X y sp o x) = Raise e ->
     fst (fn_call (objective reg X y sp) x w) = Raise e) /\
  (forall v, fst (fn_call (objective reg X y sp) x w) = Ok v ->
     snd (set_at sp o x) = Ok tt /\
     exists scores,
       snd (cv_at X y sp o x) = Ok scores /\ v = (- mean scores)%Q).
Proof.
  intros Hreg. split; [|split].
  - intros e He. by rewrite (objective_run x w o Hreg), He.
  - intros e Hset He. by rewrite (objective_run x w o Hreg), Hset, He.
  - by apply objective_propagates_errors_aux.
Qed.

End Objective.

(** ** The mean of negated errors *)

Lemma Qplus_nonneg (a b : Q) : (0 <= a)%Q -> (0 <= b)%Q -> (0 <= a + b)%Q.
Proof.
  intros Ha Hb. replace 0%Q with (0 + 0)%Q by reflexivity.
  by apply Qplus_le_compat.
Qed.

Lemma Qsum_opp (a : list Q) : (Qsum (Qopp <$> a) == - Qsum a)%Q.
Proof.
  induction a as [|q a IH]; simpl.
  - reflexivity.
  - rewrite IH. ring.
Qed.

Lemma Qsum_nonneg (a : list Q) : Forall (Qle 0) a -> (0 <= Qsum a)%Q.
Proof.
  induction 1 as [|q a Hq _ IH]; simpl.
  - apply Qle_refl.
  - by apply Qplus_nonneg.
Qed.

Lemma mean_opp (a : list Q) : (mean (Qopp <$> a) == - mean a)%Q.
Proof.
  unfold mean. rewrite length_fmap, Qsum_opp.
  unfold Qdiv. ring.
Qed.

Lemma mean_nonneg (a : list Q) : Forall (Qle 0) a -> (0 <= mean a)%Q.
Proof.
  intros Ha. unfold mean, Qdiv.
  apply Qmult_le_0_compat.
  - by apply Qsum_nonneg.
  - apply Qinv_le_0_compat.
    unfold Qle; simpl. lia.
Qed.

Section Scores.

Context {L : Library}.

Variables (reg : loc) (X y : ndarray) (sp : list Dimension).

(** C8.  The objective passes [scoring="neg_mean_absolute_error"], so the
    per-fold scores are negated errors, and it returns the negated mean of
    the scores: whenever it returns, for every configuration, the value is
    the mean over the folds of the mean absolute error, and it is not
    negative. *)
Theorem objective_is_mean_absolute_error x w v :
  scores_negate_errors ->
  fst (fn_call (objective reg X y sp) x w) = Ok v ->
  exists (o : gmap string value) (errors : list Q),
    heap w !! reg = Some o /\
    snd (cv_at X y sp o x) = Ok (Qopp <$> errors) /\
    Forall (Qle 0) errors /\
    (v == mean errors)%Q /\
    (0 <= v)%Q.
Proof.
  intros Hscoring Hv.
  destruct (heap w !! reg) as [o|] eqn:Hreg.
  - destruct (objective_propagates_errors_aux reg X y sp x w o Hreg v Hv)
      as (_ & scores & Hcv & ->).
    destruct (Hscoring _ _ _ _ _ _ Hcv) as (errors & -> & Herrors).
    exists o, errors. repeat split; try done.
    + rewrite mean_opp. apply Qopp_involutive.
    + rewrite mean_opp, Qopp_involutive. by apply mean_nonneg.
  - rewrite (objective_run_dangling reg X y sp x w Hreg) in Hv. discriminate.
Qed.

End Scores.

(** ** The search space and the binding of names *)

(** C5.  The declared space is a bounded list of dimensions: it has exactly
    five, each with a lower and an upper bound, the lower not above the
    upper: [max_depth] in [1, 5], [learning_rate] in [1e-5, 1],
    [max_features] in [1, n_features], [min_samples_split] in [2, 100],
    [min_samples_leaf] in [1, 100].  ([n_features] is the number of columns
    of the dataset, at least one.) *)
Theorem space_is_bounded (n_features : Z) :
  1 <= n_features ->
  length (space n_features) = 5%nat /\
  Forall (fun d => (low d <= high d)%Q) (space n_features) /\
  (fun d => (name d, low d, high d)) <$> space n_features =
    [ ("max_depth", 1%Q, 5%Q);
      ("learning_rate", (1 # 100000)%Q, 1%Q);
      ("max_features", 1%Q, inject_Z n_features);
      ("min_samples_split", 2%Q, 100%Q);
      ("min_samples_leaf", 1%Q, 100%Q) ].
Proof.
  intros Hn. split; [reflexivity|]. split; [|reflexivity].
  unfold space. repeat constructor; unfold Qle; simpl; lia.
Qed.

(** Bindings made one after the other: a name that is not bound keeps what
    it had. *)
Lemma foldl_insert_notin (l : list (string * value)) (acc : gmap string value)
    (k : string) :
  k ∉ l.*1 ->
  foldl (fun d nv => <[fst nv := snd nv]> d) acc l !! k = acc !! k.
Proof.
  revert acc. induction l as [|[k' v'] l IH]; intros acc Hk; simpl.
  - reflexivity.
  - rewrite fmap_cons, not_elem_of_cons in Hk. destruct Hk as [Hne Hk].
    rewrite IH by done. simpl in Hne. by rewrite lookup_insert_ne.
Qed.

Lemma foldl_insert_lookup (l : list (string * value))
    (acc : gmap string value) (i : nat) (k : string) (v : value) :
  NoDup l.*1 ->
  l !! i = Some (k, v) ->
  foldl (fun d nv => <[fst nv := snd nv]> d) acc l !! k = Some v.
Proof.
  revert acc i. induction l as [|[k' v'] l IH]; intros acc i Hnd Hi.
  - done.
  - rewrite fmap_cons, NoDup_cons in Hnd. destruct Hnd as [Hk' Hnd].
    destruct i as [|i]; simpl in *.
    + injection Hi as -> ->.
      rewrite foldl_insert_notin by done. apply lookup_insert_eq.
    + eapply IH; eauto.
Qed.

Lemma foldl_insert_dom (l : list (string * value)) (acc : gmap string value) :
  dom (foldl (fun d nv => <[fst nv := snd nv]> d) acc l)
  = list_to_set l.*1 ∪ dom acc.
Proof.
  revert acc. induction l as [|[k v] l IH]; intros acc; simpl.
  - set_solver.
  - rewrite IH, dom_insert_L. set_solver.
Qed.

Lemma NoDup_fst_zip (l : list string) (k : list value) :
  NoDup l -> NoDup (zip l k).*1.
Proof.
  revert k. induction l as [|a l IH]; intros [|b k] Hnd; simpl;
    try apply NoDup_nil_2.
  apply NoDup_cons in Hnd as [Ha Hnd]. apply NoDup_cons. split; [|by apply IH].
  intros Hin. apply Ha.
  apply list_elem_of_fmap in Hin as ([a' b'] & -> & Hin).
  by apply elem_of_zip_l in Hin.
Qed.

(** In the dictionary of a point, the name of the i-th dimension is bound
    to the i-th coordinate. *)
Lemma arg_dict_lookup (dimensions : list Dimension) (x : point) (i : nat)
    (d : Dimension) (v : value) :
  NoDup (name <$> dimensions) ->
  dimensions !! i = Some d ->
  x !! i = Some v ->
  arg_dict dimensions x !! name d = Some v.
Proof.
  intros Hnd Hd Hv. unfold arg_dict.
  apply foldl_insert_lookup with (i := i).
  - by apply NoDup_fst_zip.
  - etrans; [apply lookup_zip_with|].
    by rewrite list_lookup_fmap, Hd, Hv.
Qed.

(** The names bound in the dictionary of a point that has a coordinate for
    every dimension are the names of the dimensions. *)
Lemma arg_dict_dom (dimensions : list Dimension) (x : point) :
  length x = length dimensions ->
  dom (arg_dict dimensions x) = list_to_set (name <$> dimensions).
Proof.
  intros Hlen. unfold arg_dict.
  rewrite foldl_insert_dom, fst_zip by (rewrite length_fmap; lia).
  set_solver.
Qed.

Lemma space_names (n_features : Z) :
  name <$> space n_features =
    [ "max_depth"; "learning_rate"; "max_features"; "min_samples_split";
      "min_samples_leaf" ].
Proof. reflexivity. Qed.

Lemma space_names_NoDup (n_features : Z) : NoDup (name <$> space n_features).
Proof.
  rewrite space_names.
  apply (bool_decide_unpack (NoDup _)). vm_compute. exact I.
Qed.

Section Binding.

Context {L : Library}.

(** C10.  [use_named_args(space)] turns the objective into a function of
    one point, a list of five values, which calls the decorated function
    with the i-th coordinate of the point bound to the name of the i-th
    dimension of the declared space: the coordinates are read in declaration
    order as [max_depth], [learning_rate], [max_features],
    [min_samples_split], [min_samples_leaf]. *)
Theorem use_named_args_binds_by_position (n_features : Z) (reg : loc)
    (X y : ndarray) (x : point) (w : world) :
  length x = 5%nat ->
  use_named_args (space n_features) (objective_def reg X y) w
    = (Ok (objective reg X y (space n_features)),
       {| heap := heap w;
          log := log w ++ [CallUseNamedArgs (space n_features)] |}) /\
  fn_call (objective reg X y (space n_features)) x
    = kw_call (objective_def reg X y) (arg_dict (space n_features) x) /\
  (forall (i : nat) (d : Dimension),
     space n_features !! i = Some d ->
     arg_dict (space n_features) x !! name d = x !! i) /\
  arg_dict (space n_features) x !! "max_depth" = x !! 0%nat /\
  arg_dict (space n_features) x !! "learning_rate" = x !! 1%nat /\
  arg_dict (space n_features) x !! "max_features" = x !! 2%nat /\
  arg_dict (space n_features) x !! "min_samples_split" = x !! 3%nat /\
  arg_dict (space n_features) x !! "min_samples_leaf" = x !! 4%nat /\
  dom (arg_dict (space n_features) x)
    = list_to_set [ "max_depth"; "learning_rate"; "max_features";
                    "min_samples_split"; "min_samples_leaf" ].
Proof.
  intros Hlen.
  assert (Hbind : forall (i : nat) (d : Dimension),
             space n_features !! i = Some d ->
             arg_dict (space n_features) x !! name d = x !! i).
  { intros i d Hd.
    destruct (x !! i) as [v|] eqn:Hv.
    - eapply arg_dict_lookup; eauto using space_names_NoDup.
    - apply lookup_ge_None in Hv. apply lookup_lt_Some in Hd.
      simpl in Hd. lia. }
  split; [reflexivity|]. split; [reflexivity|]. split; [exact Hbind|].
  split; [exact (Hbind 0%nat _ eq_refl)|].
  split; [exact (Hbind 1%nat _ eq_refl)|].
  split; [exact (Hbind 2%nat _ eq_refl)|].
  split; [exact (Hbind 3%nat _ eq_refl)|].
  split; [exact (Hbind 4%nat _ eq_refl)|].
  rewrite arg_dict_dom by done. reflexivity.
Qed.

End Binding.

(** ** The shared estimator *)

Lemma union_absorb (m1 m2 m3 : gmap string value) :
  dom m2 ⊆ dom m1 -> m1 ∪ (m2 ∪ m3) = m1 ∪ m3.
Proof.
  intros Hdom. apply map_eq. intros k.
  rewrite !lookup_union.
  destruct (m1 !! k) as [v1|] eqn:H1; simpl.
  - by rewrite !union_Some_l.
  - assert (m2 !! k = None) as ->.
    { apply not_elem_of_dom. apply not_elem_of_dom in H1. set_solver. }
    by rewrite !(left_id_L None _).
Qed.

Section State.

Context {L : Library}.

Variables (reg : loc) (X y : ndarray) (sp : list Dimension).

(** A call of the objective allocates nothing and writes to no heap cell
    but the estimator's. *)
Lemma objective_frame x w :
  length (heap (snd (fn_call (objective reg X y sp) x w))) = length (heap w) /\
  forall l : loc, l <> reg ->
    heap (snd (fn_call (objective reg X y sp) x w)) !! l = heap w !! l.
Proof.
  destruct (heap w !! reg) as [o|] eqn:Hreg.
  - rewrite (objective_run reg X y sp x w o Hreg).
    destruct (snd (set_at sp o x)) as [[]|e];
      [destruct (snd (cv_at X y sp o x)) as [scores|e]|]; simpl;
      rewrite ?length_insert; (split; [reflexivity|]);
      intros l Hl; by rewrite ?list_lookup_insert_ne.
  - rewrite (objective_run_dangling reg X y sp x w Hreg). done.
Qed.

(** After a call that returned, the estimator is what cross-validation left
    of what [set_params] made of it. *)
Lemma objective_estimator x w v w' :
  fn_call (objective reg X y sp) x w = (Ok v, w') ->
  exists o,
    heap w !! reg = Some o /\
    snd (set_at sp o x) = Ok tt /\
    heap w' !! reg = Some (fst (cv_at X y sp o x)).
Proof.
  intros Hrun.
  destruct (heap w !! reg) as [o|] eqn:Hreg.
  - rewrite (objective_run reg X y sp x w o Hreg) in Hrun.
    exists o. split; [reflexivity|].
    destruct (snd (set_at sp o x)) as [[]|e]; [|discriminate].
    destruct (snd (cv_at X y sp o x)) as [scores|e]; [|discriminate].
    injection Hrun as _ <-. simpl. split; [reflexivity|].
    eapply lookup_store, lookup_store, Hreg.
  - rewrite (objective_run_dangling reg X y sp x w Hreg) in Hrun.
    discriminate.
Qed.

Lemma objective_holds_configuration x w v w' :
  set_params_sets ->
  cross_val_score_clones ->
  fn_call (objective reg X y sp) x w = (Ok v, w') ->
  exists o', heap w' !! reg = Some o' /\ arg_dict sp x ⊆ o'.
Proof.
  intros Hsets Hclones Hrun.
  destruct (objective_estimator x w v w' Hrun) as (o & _ & Hset & Hreg').
  eexists. split; [exact Hreg'|].
  unfold cv_at. rewrite Hclones. by apply Hsets.
Qed.

(** Under the contracts, a call at a full configuration leaves in the
    estimator nothing of the configurations before it: writing any full
    configuration over the estimator gives what writing it over the
    estimator of the start, [o0], gives. *)
Lemma objective_overwrites x' w o0 o' :
  set_params_overwrites sp ->
  cross_val_score_clones ->
  length x' = length sp ->
  heap w !! reg = Some o' ->
  (forall x : point, length x = length sp ->
     arg_dict sp x ∪ o' = arg_dict sp x ∪ o0) ->
  exists o'',
    heap (snd (fn_call (objective reg X y sp) x' w)) !! reg = Some o'' /\
    (forall x : point, length x = length sp ->
       arg_dict sp x ∪ o'' = arg_dict sp x ∪ o0).
Proof.
  intros Hover Hclones Hlen Hreg Hsame.
  exists (arg_dict sp x' ∪ o'). split.
  - rewrite (objective_run reg X y sp x' w o' Hreg).
    unfold cv_at. rewrite !Hclones. unfold set_at.
    rewrite (Hover o' x' Hlen). simpl.
    destruct (snd (lib_cross_val_score _ _ _ _ _ _)); simpl;
      eapply lookup_store, lookup_store, Hreg.
  - intros x Hx. rewrite union_absorb; [by apply Hsame|].
    by rewrite !arg_dict_dom.
Qed.

Lemma after_overwrites xs w o0 o' :
  set_params_overwrites sp ->
  cross_val_score_clones ->
  Forall (fun x' : point => length x' = length sp) xs ->
  heap w !! reg = Some o' ->
  (forall x : point, length x = length sp ->
     arg_dict sp x ∪ o' = arg_dict sp x ∪ o0) ->
  exists o'',
    heap (after (objective reg X y sp) xs w) !! reg = Some o'' /\
    (forall x : point, length x = length sp ->
       arg_dict sp x ∪ o'' = arg_dict sp x ∪ o0).
Proof.
  intros Hover Hclones Hxs. revert w o'.
  induction Hxs as [|x' xs Hlen _ IH]; intros w o' Hreg Hsame.
  - simpl. eauto.
  - destruct (objective_overwrites x' w o0 o' Hover Hclones Hlen Hreg Hsame)
      as (o'' & Hreg'' & Hsame'').
    change (after (objective reg X y sp) (x' :: xs) w)
      with (after (objective reg X y sp) xs
              (snd (fn_call (objective reg X y sp) x' w))).
    eapply IH; eauto.
Qed.

Lemma after_dangling xs w :
  heap w !! reg = None ->
  heap (after (objective reg X y sp) xs w) !! reg = None.
Proof.
  revert w. induction xs as [|x' xs IH]; intros w Hreg; [done|].
  change (heap (after (objective reg X y sp) xs
                  (snd (fn_call (objective reg X y sp) x' w))) !! reg = None).
  apply IH. apply lookup_ge_None. apply lookup_ge_None in Hreg.
  by rewrite (proj1 (objective_frame x' w)).
Qed.

(** The outcome of a call at a full configuration, from the estimator of
    the start alone. *)
Lemma objective_outcome x w o0 o' :
  set_params_overwrites sp ->
  cross_val_score_clones ->
  length x = length sp ->
  heap w !! reg = Some o' ->
  (forall x : point, length x = length sp ->
     arg_dict sp x ∪ o' = arg_dict sp x ∪ o0) ->
  fst (fn_call (objective reg X y sp) x w) =
  match snd (lib_cross_val_score (arg_dict sp x ∪ o0) X y 5 (-1)
               "neg_mean_absolute_error") with
  | Ok scores => Ok (- mean scores)%Q
  | Raise e => Raise e
  end.
Proof.
  intros Hover Hclones Hlen Hreg Hsame.
  rewrite (objective_run reg X y sp x w o' Hreg).
  unfold cv_at, set_at. rewrite (Hover o' x Hlen). simpl.
  rewrite (Hsame x Hlen).
  by destruct (snd (lib_cross_val_score _ _ _ _ _ _)).
Qed.

(** C2.  The objective keeps no state of its own.  A call allocates
    nothing and changes nothing in the heap but the estimator it hands to the
    library calls; and, [set_params] overwriting the parameters it is given
    and [cross_val_score] fitting clones, the outcome of a call at a
    configuration is the same after any two histories of calls. *)
Theorem objective_keeps_no_state (x : point) (xs1 xs2 : list point)
    (w : world) :
  set_params_overwrites sp ->
  cross_val_score_clones ->
  length x = length sp ->
  Forall (fun x' : point => length x' = length sp) xs1 ->
  Forall (fun x' : point => length x' = length sp) xs2 ->
  (forall (x0 : point) (w0 : world),
     length (heap (snd (fn_call (objective reg X y sp) x0 w0)))
       = length (heap w0) /\
     forall l : loc, l <> reg ->
       heap (snd (fn_call (objective reg X y sp) x0 w0)) !! l
         = heap w0 !! l) /\
  fst (fn_call (objective reg X y sp) x (after (objective reg X y sp) xs1 w))
  = fst (fn_call (objective reg X y sp) x
           (after (objective reg X y sp) xs2 w)).
Proof.
  intros Hover Hclones Hlen Hxs1 Hxs2.
  split; [intros x0 w0; apply objective_frame|].
  destruct (heap w !! reg) as [o0|] eqn:Hreg.
  - destruct (after_overwrites xs1 w o0 o0 Hover Hclones Hxs1 Hreg)
      as (o1 & Hreg1 & Hsame1); [done|].
    destruct (after_overwrites xs2 w o0 o0 Hover Hclones Hxs2 Hreg)
      as (o2 & Hreg2 & Hsame2); [done|].
    rewrite (objective_outcome x _ o0 o1 Hover Hclones Hlen Hreg1 Hsame1).
    by rewrite (objective_outcome x _ o0 o2 Hover Hclones Hlen Hreg2 Hsame2).
  - rewrite !objective_run_dangling by (by apply after_dangling).
    reflexivity.
Qed.

(** One round of the optimiser: the objective is called at the point asked
    for, with a log of its own, and the evaluation is added to those seen. *)
Lemma evaluations_S (f : function Q) dims rs n seen w :
  evaluations f dims rs (S n) seen w =
  let x := lib_ask dims rs seen in
  let r := fn_call f x {| heap := heap w; log := [] |} in
  let w1 := {| heap := heap (snd r);
               log := log w ++ [CallFunc (fn_name f) x (log (snd r))] |} in
  match fst r with
  | Ok fx => evaluations f dims rs n (seen ++ [(x, fx)]) w1
  | Raise e => (Raise e, w1)
  end.
Proof.
  simpl. unfold bind, nested.
  by destruct (fn_call f (lib_ask dims rs seen) _) as [[fx|e] w1].
Qed.

Lemma gp_minimize_run (f : function Q) dims n_calls rs w :
  gp_minimize f dims n_calls rs w =
  let r := evaluations f dims rs (Z.to_nat n_calls) []
             {| heap := heap w; log := [] |} in
  let w1 := {| heap := heap (snd r);
               log := log w ++ [CallGpMinimize (fn_name f) dims n_calls rs
                                  (log (snd r))] |} in
  match fst r with
  | Ok seen => (create_result seen, w1)
  | Raise e => (Raise e, w1)
  end.
Proof.
  unfold gp_minimize, nested, bind, lift.
  by destruct (evaluations f dims rs _ _ _) as [[seen|e] w1].
Qed.

(** When the rounds are over, the estimator holds the configuration of the
    last one. *)
Lemma evaluations_last dims rs n seen w seen' w' :
  set_params_sets ->
  cross_val_score_clones ->
  evaluations (objective reg X y sp) dims rs (S n) seen w = (Ok seen', w') ->
  exists x v o',
    last seen' = Some (x, v) /\
    heap w' !! reg = Some o' /\
    arg_dict sp x ⊆ o'.
Proof.
  intros Hsets Hclones. revert seen w.
  induction n as [|n IH]; intros seen w; rewrite evaluations_S; cbv zeta;
    destruct (fn_call (objective reg X y sp) (lib_ask dims rs seen) _)
      as [[fx|e] w1] eqn:Hcall; simpl; try discriminate.
  - intros [= <- <-]. simpl.
    destruct (objective_holds_configuration _ _ _ _ Hsets Hclones Hcall)
      as (o' & Hreg' & Hsub).
    exists (lib_ask dims rs seen), fx, o'. by rewrite last_snoc.
  - apply IH.
Qed.

Lemma evaluations_O_inv (f : function Q) dims rs seen w seen' w' :
  evaluations f dims rs 0 seen w = (Ok seen', w') -> seen' = seen.
Proof. by intros [= <- _]. Qed.

Lemma create_result_evaluations seen res :
  create_result seen = Ok res ->
  x_iters res = fst <$> seen.
Proof. destruct seen; [discriminate|]. by intros [= <-]. Qed.

Lemma gp_minimize_last dims n_calls rs w res w' :
  set_params_sets ->
  cross_val_score_clones ->
  gp_minimize (objective reg X y sp) dims n_calls rs w = (Ok res, w') ->
  exists x o',
    last (x_iters res) = Some x /\
    heap w' !! reg = Some o' /\
    arg_dict sp x ⊆ o'.
Proof.
  intros Hsets Hclones. rewrite gp_minimize_run; cbv zeta.
  destruct (evaluations _ dims rs (Z.to_nat n_calls) [] _)
    as [[seen|e] w1] eqn:Hrun; simpl; [|discriminate].
  destruct (Z.to_nat n_calls) as [|n].
  - apply evaluations_O_inv in Hrun as ->. discriminate.
  - destruct (evaluations_last _ _ _ _ _ _ _ Hsets Hclones Hrun)
      as (x & v & o' & Hlast & Hreg' & Hsub).
    intros [= Hres <-].
    exists x, o'. split; [|done].
    by rewrite (create_result_evaluations _ _ Hres), fmap_last, Hlast.
Qed.

End State.

(** The stand-in library keeps the contracts. *)
Lemma toy_set_params_sets : set_params_sets (L := toy).
Proof.
  intros o params. simpl. unfold toy_set_params.
  case_bool_decide; simpl; [|discriminate].
  intros _. apply map_union_subseteq_l.
Qed.

Lemma toy_cross_val_score_clones : cross_val_score_clones (L := toy).
Proof.
  intros o X y cv n_jobs scoring. simpl. unfold toy_cross_val_score.
  by destruct (Qle_bool _ _).
Qed.

Lemma toy_set_params_overwrites (n_features : Z) :
  set_params_overwrites (L := toy) (space n_features).
Proof.
  intros o x Hlen. simpl. unfold toy_set_params.
  rewrite bool_decide_true; [done|].
  rewrite arg_dict_dom by done. rewrite space_names.
  apply (bool_decide_unpack (_ ⊆ _)). vm_compute. exact I.
Qed.

Section LastConfiguration.

Context {L : Library}.

Variables (reg : loc) (X y : ndarray) (sp : list Dimension).

(** C9.  Every call of the objective writes, through [set_params], to the
    one estimator object the notebook created: a call allocates no object,
    and when it has returned the estimator holds the configuration of the
    call.  So when the optimizer has returned, the estimator holds the
    configuration evaluated last; and that need not be the best one found:
    there is a run in which the result's best configuration is not the last
    one and is not what the estimator holds. *)
Theorem estimator_holds_last_configuration :
  set_params_sets ->
  cross_val_score_clones ->
  (forall x w v w',
     fn_call (objective reg X y sp) x w = (Ok v, w') ->
     length (heap w') = length (heap w) /\
     exists o', heap w' !! reg = Some o' /\ arg_dict sp x ⊆ o') /\
  (forall dims n_calls rs w res w',
     gp_minimize (objective reg X y sp) dims n_calls rs w = (Ok res, w') ->
     exists x o',
       last (x_iters res) = Some x /\
       heap w' !! reg = Some o' /\
       arg_dict sp x ⊆ o') /\
  (exists (T : Library) reg0 X0 y0 sp0 n_calls rs w res o',
     set_params_sets (L := T) /\
     cross_val_score_clones (L := T) /\
     fst (gp_minimize (L := T) (objective (L := T) reg0 X0 y0 sp0) sp0
            n_calls rs w) = Ok res /\
     heap (snd (gp_minimize (L := T) (objective (L := T) reg0 X0 y0 sp0) sp0
                  n_calls rs w)) !! reg0 = Some o' /\
     last (x_iters res) <> Some (res_x res) /\
     ~ arg_dict sp0 (res_x res) ⊆ o').
Proof.
  intros Hsets Hclones. split; [|split].
  - intros x w v w' Hcall. split.
    + pose proof (proj1 (objective_frame reg X y sp x w)) as Hlen.
      by rewrite Hcall in Hlen.
    + by eapply objective_holds_configuration.
  - intros dims n_calls rs w res w'. by apply gp_minimize_last.
  - exists toy, 0%nat, (data toy_boston), (target toy_boston), (space 13),
      5, 0, toy_world,
      (match fst toy_run with Ok res => res | Raise _ => no_result end),
      (default ∅ (heap (snd toy_run) !! 0%nat)).
    fold toy_run.
    split; [apply toy_set_params_sets|].
    split; [apply toy_cross_val_score_clones|].
    split; [vm_compute; reflexivity|].
    split; [vm_compute; reflexivity|].
    split.
    + vm_compute. discriminate.
    + intros Hsub. rewrite map_subseteq_spec in Hsub.
      specialize (Hsub "max_depth" (VInt 3)).
      vm_compute in Hsub. specialize (Hsub eq_refl). discriminate.
Qed.

End LastConfiguration.

(** ** The run of the notebook *)

Section Run.

Context {L : Library}.

Lemma bind_run {A B} (m : M A) (k : A -> M B) (w : world) :
  bind m k w =
  match fst (m w) with
  | Ok a => k a (snd (m w))
  | Raise e => (Raise e, snd (m w))
  end.
Proof. unfold bind. by destruct (m w) as [[a|e] w']. Qed.

Lemma load_boston_run w :
  load_boston w =
  (lib_load_boston, {| heap := heap w; log := log w ++ [CallLoadBoston] |}).
Proof. unfold load_boston, bind, emit, lift; simpl. by destruct lib_load_boston. Qed.

Lemma GradientBoostingRegressor_run kw w :
  GradientBoostingRegressor kw w =
  match lib_GradientBoostingRegressor kw with
  | Ok o =>
    (Ok (length (heap w)),
     {| heap := heap w ++ [o];
        log := log w ++ [CallGradientBoostingRegressor kw] |})
  | Raise e =>
    (Raise e,
     {| heap := heap w;
        log := log w ++ [CallGradientBoostingRegressor kw] |})
  end.
Proof.
  unfold GradientBoostingRegressor, bind, emit, lift, alloc; simpl.
  by destruct (lib_GradientBoostingRegressor kw).
Qed.

Lemma list_display_run ds w :
  list_display ds w =
  (Ok ds, {| heap := heap w; log := log w ++ (CallDimension <$> ds) |}).
Proof.
  revert w. induction ds as [|d ds IH]; intros [h l]; simpl.
  - unfold ret. by rewrite app_nil_r.
  - unfold bind, construct, emit, ret; simpl. rewrite IH; simpl.
    by rewrite <- app_assoc.
Qed.

Lemma plot_convergence_run res w :
  plot_convergence res w =
  (lib_plot_convergence res,
   {| heap := heap w; log := log w ++ [CallPlotConvergence res] |}).
Proof.
  unfold plot_convergence, bind, emit, lift; simpl.
  by destruct (lib_plot_convergence res).
Qed.

Variables (reg : loc) (X y : ndarray) (sp : list Dimension).

(** What a call of the objective logs. *)
Lemma objective_log x w :
  exists steps,
    log (snd (fn_call (objective reg X y sp) x w)) = log w ++ steps /\
    objective_steps reg X y sp x steps.
Proof.
  destruct (heap w !! reg) as [o|] eqn:Hreg.
  - rewrite (objective_run reg X y sp x w o Hreg).
    destruct (snd (set_at sp o x)) as [[]|e];
      [destruct (snd (cv_at X y sp o x)) as [scores|e]|]; simpl;
      eexists; (split; [reflexivity|]).
    + exists scores. done.
    + exists []. by eexists [_].
    + exists []. by eexists [_; _].
  - rewrite (objective_run_dangling reg X y sp x w Hreg). simpl.
    eexists; split; [reflexivity|]. exists []. by eexists [_; _].
Qed.

(** What the rounds of the optimizer log: one call of the objective for
    each round made. *)
Lemma evaluations_log dims rs n seen w :
  exists children,
    log (snd (evaluations (objective reg X y sp) dims rs n seen w))
      = log w ++ children /\
    Forall (objective_call reg X y sp) children /\
    (length children <= n)%nat /\
    (forall seen',
       fst (evaluations (objective reg X y sp) dims rs n seen w) = Ok seen' ->
       length children = n).
Proof.
  revert seen w. induction n as [|n IH]; intros seen w.
  - exists []. simpl. rewrite app_nil_r. repeat split; auto.
  - rewrite evaluations_S; cbv zeta.
    destruct (objective_log (lib_ask dims rs seen)
                {| heap := heap w; log := [] |}) as (steps & Hsteps & Hshape).
    rewrite Hsteps.
    change (log {| heap := heap w; log := [] |} ++ steps) with steps.
    set (call := CallFunc _ _ steps).
    assert (Hcall : objective_call reg X y sp call) by (by exists (lib_ask dims rs seen), steps).
    destruct (fst (fn_call (objective reg X y sp) (lib_ask dims rs seen) _))
      as [fx|e].
    + edestruct IH as (children & -> & Hall & Hle & Hok).
      exists (call :: children). simpl. rewrite <- app_assoc. simpl.
      split; [reflexivity|]. split; [by constructor|]. split; [lia|].
      intros seen' Hseen'. f_equal. by eapply Hok.
    + exists [call]. simpl. repeat split; auto with lia.
      discriminate.
Qed.

Lemma gp_minimize_log dims n_calls rs w :
  exists children,
    log (snd (gp_minimize (objective reg X y sp) dims n_calls rs w))
      = log w ++ [CallGpMinimize "objective" dims n_calls rs children] /\
    Forall (objective_call reg X y sp) children /\
    (length children <= Z.to_nat n_calls)%nat /\
    (forall res,
       fst (gp_minimize (objective reg X y sp) dims n_calls rs w) = Ok res ->
       length children = Z.to_nat n_calls).
Proof.
  rewrite gp_minimize_run; cbv zeta.
  destruct (evaluations_log dims rs (Z.to_nat n_calls) []
              {| heap := heap w; log := [] |})
    as (children & Hlog & Hall & Hle & Hok).
  rewrite Hlog.
  change (log {| heap := heap w; log := [] |} ++ children) with children.
  exists children.
  destruct (fst (evaluations _ dims rs (Z.to_nat n_calls) [] _)) as [seen|e];
    simpl; repeat split; auto.
  - intros res _. by eapply Hok.
  - discriminate.
Qed.

End Run.

Section NotebookLog.

Context {L : Library}.

Lemma getitem_run {A} (l : list A) (i : nat) (w : world) :
  getitem l i w =
  (match l !! i with
   | Some a => Ok a
   | None => Raise (Exception "IndexError" "index out of range")
   end, w).
Proof. unfold getitem. by destruct (l !! i). Qed.

Lemma use_named_args_run {A} dims (func : kwfunction A) (w : world) :
  use_named_args dims func w =
  (Ok (wrapper dims func),
   {| heap := heap w; log := log w ++ [CallUseNamedArgs dims] |}).
Proof. reflexivity. Qed.

(** A run that stopped: its calls are the first of those of a full run. *)
Ltac stopped n reg X y children res best Hall Hle :=
  exists n, reg, X, y, children, res, best; eexists;
  split; [simpl; rewrite <- ?app_assoc; reflexivity|];
  split; [simpl; eexists; reflexivity|];
  split; [exact Hall|];
  split; [exact Hle|];
  discriminate.

(** The log of a run of the notebook: the calls of a full run, up to the
    call that raised if one did. *)
Lemma notebook_log w :
  exists (n_features : Z) (reg : loc) (X y : ndarray)
         (children : list event) (res : OptimizeResult) (best : list value)
         (evs : list event),
    log (snd (notebook w)) = log w ++ evs /\
    evs `prefix_of` notebook_calls n_features children res best /\
    Forall (objective_call reg X y (space n_features)) children /\
    (length children <= 50)%nat /\
    (fst (notebook w) = Ok tt ->
       evs = notebook_calls n_features children res best /\
       length children = 50%nat /\
       best = take 5 (res_x res) /\
       reg = length (heap w) /\
       exists boston,
         lib_load_boston = Ok boston /\
         X = data boston /\ y = target boston /\
         shape X !! 1%nat = Some n_features).
Proof.
  assert (Hnil : forall reg X y sp, Forall (objective_call reg X y sp) [])
    by constructor.
  assert (Hle0 : (length (@nil event) <= 50)%nat) by (simpl; lia).
  unfold notebook.
  rewrite bind_run, load_boston_run; cbn [fst snd heap log].
  destruct lib_load_boston as [boston|e].
  2: stopped 0 0%nat no_array no_array (@nil event) no_result (@nil value) (Hnil 0%nat no_array no_array (space 0)) Hle0.
  rewrite bind_run, getitem_run.
  destruct (shape (data boston) !! 1%nat) as [n_features|] eqn:Hn.
  2: stopped 0 0%nat no_array no_array (@nil event) no_result (@nil value) (Hnil 0%nat no_array no_array (space 0)) Hle0.
  cbn [fst snd heap log].
  rewrite bind_run, GradientBoostingRegressor_run.
  destruct (lib_GradientBoostingRegressor reg_kwargs) as [o|e]; cbn [fst snd heap log].
  2: stopped 0 0%nat no_array no_array (@nil event) no_result (@nil value) (Hnil 0%nat no_array no_array (space 0)) Hle0.
  rewrite bind_run, list_display_run; cbn [fst snd heap log].
  rewrite bind_run, use_named_args_run; cbn [fst snd heap log].
  fold (objective (length (heap w)) (data boston) (target boston)
          (space n_features)).
  rewrite bind_run.
  match goal with |- context [gp_minimize ?f ?d ?n ?r ?w3] =>
    destruct (gp_minimize_log (length (heap w)) (data boston) (target boston)
                (space n_features) d n r w3)
      as (children & Hlog & Hall & Hle & Hok);
    destruct (gp_minimize f d n r w3) as [[res|e] [h4 l4]]
  end; cbn [fst snd heap log] in *; subst l4.
  2: stopped n_features (length (heap w)) (data boston) (target boston) children no_result (@nil value) Hall Hle.
  specialize (Hok res eq_refl).
  assert (Hle' : (length children <= 50)%nat) by exact Hle.
  destruct res as [rx rf xi fv].
  set (res := {| res_x := rx; res_fun := rf; x_iters := xi; func_vals := fv |}).
  assert (Hrx : res_x res = rx) by reflexivity.
  rewrite !Hrx.
  destruct rx as [|x0 [|x1 [|x2 [|x3 [|x4 rest]]]]];
    unfold bind at 1, display, emit; cbn [fst snd heap log];
    unfold bind, print, emit, getitem, raise, ret;
    cbn [fst snd heap log lookup list_lookup].
  1-5: stopped n_features (length (heap w)) (data boston) (target boston) children res (@nil value) Hall Hle'.
  rewrite plot_convergence_run. cbn [fst snd heap log].
  exists n_features, (length (heap w)), (data boston), (target boston),
    children, res, [x0; x1; x2; x3; x4]; eexists.
  split; [rewrite <- !app_assoc; reflexivity|].
  split; [simpl; by eexists []|].
  split; [exact Hall|]. split; [exact Hle'|].
  intros _. split; [reflexivity|]. split; [exact Hok|].
  split; [reflexivity|]. split; [reflexivity|]. by exists boston.
Qed.

End NotebookLog.

(** ** The flow of the notebook *)

Lemma steps_of_notebook_calls n_features children res best :
  step_of <$> notebook_calls n_features children res best = Some <$> flow.
Proof. reflexivity. Qed.

Lemma all_events_app (l k : list event) :
  all_events (l ++ k) = all_events l ++ all_events k.
Proof. unfold all_events. apply flat_map_app. Qed.

(** The steps of a call of the objective make no call themselves, none of
    them is a call of the optimizer, and the one that passes a parallelism
    flag is the cross-validation, with [n_jobs=-1]. *)
Lemma objective_steps_events reg X y sp x steps :
  objective_steps reg X y sp x steps ->
  all_events steps = steps /\
  Forall (fun e => is_gp_minimize e = false) steps /\
  Forall (fun e => forall j, n_jobs_of e = Some j ->
                   j = -1 /\ e = step_cross_val_score reg X y) steps.
Proof.
  intros (scores & k & Hk).
  assert (Hall : Forall (fun e =>
            subevents e = [e] /\ is_gp_minimize e = false /\
            forall j, n_jobs_of e = Some j ->
              j = -1 /\ e = step_cross_val_score reg X y) (steps ++ k)).
  { rewrite <- Hk.
    repeat apply Forall_cons_2; try apply Forall_nil_2;
      (split; [reflexivity|split; [reflexivity|]]);
      simpl; try discriminate; by intros j [= <-]. }
  apply Forall_app in Hall as [Hall _].
  clear Hk. induction Hall as [|e steps (He & Hgp & Hj) _ (IH1 & IH2 & IH3)].
  - repeat split; constructor.
  - split; [|split; by constructor].
    change (all_events (e :: steps)) with (subevents e ++ all_events steps).
    by rewrite He, IH1.
Qed.

Lemma objective_call_events reg X y sp e :
  objective_call reg X y sp e ->
  Forall (fun e' => is_gp_minimize e' = false) (subevents e) /\
  Forall (fun e' => forall j, n_jobs_of e' = Some j ->
                    j = -1 /\ e' = step_cross_val_score reg X y)
    (subevents e).
Proof.
  intros (x & steps & -> & Hsteps).
  destruct (objective_steps_events _ _ _ _ _ _ Hsteps) as (Hev & Hgp & Hj).
  change (subevents (CallFunc "objective" x steps))
    with (CallFunc "objective" x steps :: all_events steps).
  rewrite Hev. split; constructor; try done.
Qed.

Lemma objective_calls_events reg X y sp children :
  Forall (objective_call reg X y sp) children ->
  Forall (fun e' => is_gp_minimize e' = false) (all_events children) /\
  Forall (fun e' => forall j, n_jobs_of e' = Some j ->
                    j = -1 /\ e' = step_cross_val_score reg X y)
    (all_events children).
Proof.
  induction 1 as [|e children He _ (IH1 & IH2)].
  - split; constructor.
  - destruct (objective_call_events _ _ _ _ _ He) as (H1 & H2).
    change (all_events (e :: children))
      with (subevents e ++ all_events children).
    split; by apply Forall_app.
Qed.

Lemma all_events_notebook_calls n_features children res best :
  all_events (notebook_calls n_features children res best) =
  [ CallLoadBoston; CallGradientBoostingRegressor reg_kwargs ]
  ++ (CallDimension <$> space n_features)
  ++ [ CallUseNamedArgs (space n_features);
       CallGpMinimize "objective" (space n_features) 50 0 children ]
  ++ all_events children
  ++ [ Display (Percent best_score [VFloat (res_fun res)]);
       CallPrint (Percent best_parameters best);
       CallPlotConvergence res ].
Proof.
  unfold notebook_calls, all_events. simpl. reflexivity.
Qed.

Lemma filter_false (l : list event) (f : event -> bool) :
  Forall (fun e => f e = false) l -> List.filter f l = [].
Proof.
  induction 1 as [|e l He _ IH]; simpl; [done|]. by rewrite He.
Qed.

Lemma optimizer_calls_of_notebook_calls reg X y n_features children res best :
  Forall (objective_call reg X y (space n_features)) children ->
  List.filter is_gp_minimize
    (all_events (notebook_calls n_features children res best))
  = [CallGpMinimize "objective" (space n_features) 50 0 children].
Proof.
  intros Hall. rewrite all_events_notebook_calls.
  destruct (objective_calls_events _ _ _ _ _ Hall) as (Hgp & _).
  simpl. rewrite List.filter_app, (filter_false _ _ Hgp). reflexivity.
Qed.

Section Flow.

Context {L : Library}.

(** C3.  The calls of a run of the notebook are, in this order: loading the
    dataset, constructing the estimator, declaring the bounds of the
    parameters (five dimensions), defining the objective (the decorator's
    call), invoking the optimizer, printing (the best score, the best
    parameters) and plotting.  A run that an exception stops has made the
    first of these calls; no run makes another call before, between or after
    them. *)
Theorem notebook_flow (w : world) :
  exists evs : list event,
    log (snd (notebook w)) = log w ++ evs /\
    (step_of <$> evs) `prefix_of` (Some <$> flow) /\
    (fst (notebook w) = Ok tt -> step_of <$> evs = Some <$> flow).
Proof.
  destruct (notebook_log w)
    as (n & reg & X & y & children & res & best & evs
        & Hlog & [k Hk] & _ & _ & Hdone).
  exists evs. split; [exact Hlog|]. split.
  - exists (step_of <$> k).
    by rewrite <- fmap_app, <- Hk, steps_of_notebook_calls.
  - intros Hok. destruct (Hdone Hok) as (-> & _).
    apply steps_of_notebook_calls.
Qed.

End Flow.

Lemma filter_prefix_length (f : event -> bool) (l1 l2 : list event) :
  l1 `prefix_of` l2 ->
  (length (List.filter f l1) <= length (List.filter f l2))%nat.
Proof.
  intros [k ->]. rewrite List.filter_app, length_app. lia.
Qed.

Lemma all_events_prefix (l1 l2 : list event) :
  l1 `prefix_of` l2 -> all_events l1 `prefix_of` all_events l2.
Proof.
  intros [k ->]. rewrite all_events_app. by eexists.
Qed.

Section Calls.

Context {L : Library}.

(** C4.  The optimizer is invoked once: in the calls of a run, at any
    depth, there is at most one call of [gp_minimize], and a run that comes
    to its end has made exactly one.  That call passes the function
    [objective], the declared space of five dimensions, [n_calls=50] and
    [random_state=0]; the calls made under it are the budget's fifty calls
    of the objective. *)
Theorem optimizer_invoked_once (w : world) :
  exists evs : list event,
    log (snd (notebook w)) = log w ++ evs /\
    (length (List.filter is_gp_minimize (all_events evs)) <= 1)%nat /\
    (fst (notebook w) = Ok tt ->
       exists (boston : Bunch) (n_features : Z) (children : list event),
         lib_load_boston = Ok boston /\
         shape (data boston) !! 1%nat = Some n_features /\
         List.filter is_gp_minimize (all_events evs)
           = [CallGpMinimize "objective" (space n_features) 50 0 children] /\
         length (space n_features) = 5%nat /\
         length children = 50%nat /\
         Forall (objective_call (length (heap w)) (data boston)
                   (target boston) (space n_features)) children).
Proof.
  destruct (notebook_log w)
    as (n & reg & X & y & children & res & best & evs
        & Hlog & Hpre & Hall & _ & Hdone).
  exists evs. split; [exact Hlog|]. split.
  - etrans.
    + apply filter_prefix_length, all_events_prefix, Hpre.
    + by rewrite (optimizer_calls_of_notebook_calls reg X y).
  - intros Hok.
    destruct (Hdone Hok)
      as (-> & Hlen & _ & -> & boston & Hb & -> & -> & Hn).
    exists boston, n, children.
    split; [exact Hb|]. split; [exact Hn|].
    split; [by eapply optimizer_calls_of_notebook_calls|].
    split; [reflexivity|]. split; [exact Hlen|]. exact Hall.
Qed.


End Calls.

(** ** The properties at work on the stand-in library *)

Lemma toy_errors_nonneg (o : gmap string value) : Forall (Qle 0) (toy_errors o).
Proof.
  unfold toy_errors. apply Forall_fmap, Forall_true. intros i. cbv beta.
  repeat apply Qplus_nonneg; apply Qabs_nonneg.
Qed.

Lemma toy_scores_negate_errors : scores_negate_errors (L := toy).
Proof.
  intros o X y cv n_jobs scores. simpl. unfold toy_cross_val_score.
  destruct (Qle_bool 1 (attr o "max_depth")); simpl; [|discriminate].
  intros [= <-]. exists (toy_errors o). split; [reflexivity|].
  apply toy_errors_nonneg.
Qed.

Lemma objective_three_steps_witness :
  let f := objective (L := toy) 0%nat (data toy_boston) (target toy_boston)
             (space 13) in
  let scores :=
    Qopp <$> toy_errors (arg_dict (space 13) (toy_point 3) ∪ toy_reg) in
  fst (fn_call f (toy_point 3) toy_world) = Ok (- mean scores)%Q /\
  log (snd (fn_call f (toy_point 3) toy_world)) =
    [ CallSetParams 0%nat (arg_dict (space 13) (toy_point 3));
      CallCrossValScore 0%nat (data toy_boston) (target toy_boston) 5 (-1)
        "neg_mean_absolute_error";
      CallMean scores ].
Proof.
  apply (objective_three_steps (L := toy) 0%nat (data toy_boston)
           (target toy_boston) (space 13) (toy_point 3) toy_world toy_reg).
  - reflexivity.
  - vm_compute; reflexivity.
  - vm_compute; reflexivity.
Defined.

Lemma objective_propagates_errors_witness :
  fst (fn_call (objective (L := toy) 0%nat (data toy_boston)
                  (target toy_boston) (space 13)) (toy_point 0) toy_world)
  = Raise (Exception "ValueError" "max_depth must be greater than zero") /\
  fst (fn_call (objective (L := toy) 0%nat (data toy_boston)
                  (target toy_boston) [Integer 1 5 "depth"]) [VInt 3]
         toy_world)
  = Raise (Exception "ValueError" "Invalid parameter for estimator").
Proof.
  split.
  - apply (proj1 (proj2 (objective_propagates_errors (L := toy) 0%nat
             (data toy_boston) (target toy_boston) (space 13) (toy_point 0)
             toy_world toy_reg eq_refl)));
      vm_compute; reflexivity.
  - apply (proj1 (objective_propagates_errors (L := toy) 0%nat
             (data toy_boston) (target toy_boston) [Integer 1 5 "depth"]
             [VInt 3] toy_world toy_reg eq_refl));
      vm_compute; reflexivity.
Defined.

Lemma objective_is_mean_absolute_error_witness :
  exists (o : gmap string value) (errors : list Q),
    heap toy_world !! 0%nat = Some o /\
    snd (cv_at (L := toy) (data toy_boston) (target toy_boston) (space 13)
           o (toy_point 2)) = Ok (Qopp <$> errors) /\
    Forall (Qle 0) errors /\
    (6500000000000000 # 5000000000000000 == mean errors)%Q /\
    (0 <= 6500000000000000 # 5000000000000000)%Q.
Proof.
  apply (objective_is_mean_absolute_error (L := toy) 0%nat (data toy_boston)
           (target toy_boston) (space 13) (toy_point 2) toy_world
           (6500000000000000 # 5000000000000000)).
  - apply toy_scores_negate_errors.
  - vm_compute; reflexivity.
Defined.

Lemma space_is_bounded_witness :
  length (space 13) = 5%nat /\
  Forall (fun d => (low d <= high d)%Q) (space 13) /\
  (fun d => (name d, low d, high d)) <$> space 13 =
    [ ("max_depth", 1%Q, 5%Q);
      ("learning_rate", (1 # 100000)%Q, 1%Q);
      ("max_features", 1%Q, 13%Q);
      ("min_samples_split", 2%Q, 100%Q);
      ("min_samples_leaf", 1%Q, 100%Q) ].
Proof. apply (space_is_bounded 13). lia. Defined.

Lemma use_named_args_binds_by_position_witness :
  arg_dict (space 13) (toy_point 3) !! "max_depth" = Some (VInt 3) /\
  arg_dict (space 13) (toy_point 3) !! "learning_rate"
    = Some (VFloat (1 # 10)) /\
  arg_dict (space 13) (toy_point 3) !! "max_features" = Some (VInt 13) /\
  arg_dict (space 13) (toy_point 3) !! "min_samples_split" = Some (VInt 2) /\
  arg_dict (space 13) (toy_point 3) !! "min_samples_leaf" = Some (VInt 1).
Proof.
  destruct (use_named_args_binds_by_position (L := toy) 13 0%nat
              (data toy_boston) (target toy_boston) (toy_point 3) toy_world
              eq_refl)
    as (_ & _ & _ & H0 & H1 & H2 & H3 & H4 & _).
  repeat split; assumption.
Defined.

Lemma objective_keeps_no_state_witness :
  let f := objective (L := toy) 0%nat (data toy_boston) (target toy_boston)
             (space 13) in
  fst (fn_call f (toy_point 3) (after f [toy_point 1; toy_point 5] toy_world))
  = fst (fn_call f (toy_point 3) (after f [toy_point 4] toy_world)).
Proof.
  apply (objective_keeps_no_state (L := toy) 0%nat (data toy_boston)
           (target toy_boston) (space 13) (toy_point 3)
           [toy_point 1; toy_point 5] [toy_point 4] toy_world).
  - apply toy_set_params_overwrites.
  - apply toy_cross_val_score_clones.
  - reflexivity.
  - repeat constructor.
  - repeat constructor.
Defined.

Lemma estimator_holds_last_configuration_witness :
  let f := objective (L := toy) 0%nat (data toy_boston) (target toy_boston)
             (space 13) in
  length (heap (snd (fn_call f (toy_point 2) toy_world))) = 1%nat /\
  exists o',
    heap (snd (fn_call f (toy_point 2) toy_world)) !! 0%nat = Some o' /\
    arg_dict (space 13) (toy_point 2) ⊆ o'.
Proof.
  destruct (estimator_holds_last_configuration (L := toy) 0%nat
              (data toy_boston) (target toy_boston) (space 13)
              toy_set_params_sets toy_cross_val_score_clones)
    as (Hcall & _ & _).
  apply (Hcall (toy_point 2) toy_world
           (6500000000000000 # 5000000000000000)%Q).
  vm_compute; reflexivity.
Defined.

Lemma notebook_flow_witness :
  exists evs : list event,
    log (snd (notebook (L := toy) empty_world)) = evs /\
    step_of <$> evs = Some <$> flow.
Proof.
  destruct (notebook_flow (L := toy) empty_world) as (evs & Hlog & _ & Hdone).
  exists evs. split; [exact Hlog|].
  apply Hdone. vm_compute; reflexivity.
Defined.

Lemma optimizer_invoked_once_witness :
  exists (evs children : list event),
    log (snd (notebook (L := toy) empty_world)) = evs /\
    List.filter is_gp_minimize (all_events evs)
      = [CallGpMinimize "objective" (space 13) 50 0 children] /\
    length children = 50%nat.
Proof.
  destruct (optimizer_invoked_once (L := toy) empty_world)
    as (evs & Hlog & _ & Hdone).
  destruct Hdone as (boston & n & children & Hb & Hn & Hgp & _ & Hlen & _);
    [vm_compute; reflexivity|].
  injection Hb as <-. injection Hn as <-.
  exists evs, children.
  split; [exact Hlog|]. split; [exact Hgp|exact Hlen].
Defined.

(** ** Further properties of the notebook *)

Section Whole.

Context {L : Library}.

(** The run of the notebook, call by call: it stops at the first call that
    raises, and at the two places where the notebook itself indexes. *)
Lemma notebook_run (w : world) :
  notebook w =
  match lib_load_boston with
  | Raise e =>
    (Raise e, {| heap := heap w; log := log w ++ [CallLoadBoston] |})
  | Ok boston =>
    match shape (data boston) !! 1%nat with
    | None =>
      (Raise (Exception "IndexError" "index out of range"),
       {| heap := heap w; log := log w ++ [CallLoadBoston] |})
    | Some n_features =>
      match lib_GradientBoostingRegressor reg_kwargs with
      | Raise e =>
        (Raise e,
         {| heap := heap w;
            log := log w ++ [ CallLoadBoston;
                              CallGradientBoostingRegressor reg_kwargs ] |})
      | Ok o =>
        let r :=
          gp_minimize
            (objective (length (heap w)) (data boston) (target boston)
               (space n_features))
            (space n_features) 50 0
            {| heap := heap w ++ [o];
               log := log w
                      ++ [ CallLoadBoston;
                           CallGradientBoostingRegressor reg_kwargs ]
                      ++ (CallDimension <$> space n_features)
                      ++ [CallUseNamedArgs (space n_features)] |} in
        match fst r with
        | Raise e => (Raise e, snd r)
        | Ok res => report res (snd r)
        end
      end
    end
  end.
Proof.
  unfold notebook.
  rewrite bind_run, load_boston_run; cbn [fst snd heap log].
  destruct lib_load_boston as [boston|e]; [|reflexivity].
  rewrite bind_run, getitem_run; cbn [fst snd heap log].
  destruct (shape (data boston) !! 1%nat) as [n_features|]; [|reflexivity].
  rewrite bind_run, GradientBoostingRegressor_run.
  destruct (lib_GradientBoostingRegressor reg_kwargs) as [o|e];
    cbn [fst snd heap log]; [|by rewrite <- app_assoc].
  rewrite bind_run, list_display_run; cbn [fst snd heap log].
  rewrite bind_run, use_named_args_run; cbn [fst snd heap log].
  fold (objective (length (heap w)) (data boston) (target boston)
          (space n_features)).
  rewrite bind_run. rewrite <- !app_assoc. reflexivity.
Qed.

Lemma report_run (res : OptimizeResult) (w : world) :
  report res w =
  match res_x res with
  | x0 :: x1 :: x2 :: x3 :: x4 :: _ =>
    (lib_plot_convergence res,
     {| heap := heap w;
        log := log w
               ++ [ Display (Percent best_score [VFloat (res_fun res)]);
                    CallPrint (Percent best_parameters [x0; x1; x2; x3; x4]);
                    CallPlotConvergence res ] |})
  | _ =>
    (Raise (Exception "IndexError" "index out of range"),
     {| heap := heap w;
        log := log w
               ++ [Display (Percent best_score [VFloat (res_fun res)])] |})
  end.
Proof.
  unfold report.
  destruct (res_x res) as [|x0 [|x1 [|x2 [|x3 [|x4 rest]]]]];
    unfold bind at 1, display, emit; cbn [fst snd heap log];
    unfold bind, print, emit, getitem, raise, ret;
    cbn [fst snd heap log lookup list_lookup]; try reflexivity.
  rewrite plot_convergence_run. cbn [fst snd heap log].
  by rewrite <- !app_assoc.
Qed.

Variables (reg : loc) (X y : ndarray) (sp : list Dimension).



(** A call of the objective that returns has made its three steps. *)
Lemma objective_returns x w v :
  fst (fn_call (objective reg X y sp) x w) = Ok v ->
  exists scores : list Q,
    v = (- mean scores)%Q /\
    log (snd (fn_call (objective reg X y sp) x w))
      = log w ++ [ step_set_params reg sp x; step_cross_val_score reg X y;
                   step_mean scores ].
Proof.
  destruct (heap w !! reg) as [o|] eqn:Hreg.
  - rewrite (objective_run reg X y sp x w o Hreg).
    destruct (snd (set_at sp o x)) as [[]|e]; [|discriminate].
    destruct (snd (cv_at X y sp o x)) as [scores|e]; [|discriminate].
    intros [= <-]. by exists scores.
  - rewrite (objective_run_dangling reg X y sp x w Hreg). discriminate.
Qed.

(** Rounds that all return: each is a call of the objective with its three
    steps, and what the optimizer has seen is the point and the value of
    each. *)
Lemma evaluations_complete dims rs n seen w seen' :
  fst (evaluations (objective reg X y sp) dims rs n seen w) = Ok seen' ->
  exists calls : list (point * list Q),
    length calls = n /\
    seen' = seen ++ ((fun c => (fst c, (- mean (snd c))%Q)) <$> calls) /\
    log (snd (evaluations (objective reg X y sp) dims rs n seen w))
      = log w ++ (evaluation_event reg X y sp <$> calls).
Proof.
  revert seen w. induction n as [|n IH]; intros seen w.
  - intros [= <-]. exists []. simpl. by rewrite !app_nil_r.
  - rewrite evaluations_S; cbv zeta.
    destruct (fst (fn_call (objective reg X y sp) (lib_ask dims rs seen)
                     {| heap := heap w; log := [] |})) as [fx|e] eqn:Hcall;
      [|discriminate].
    destruct (objective_returns _ _ _ Hcall) as (scores & -> & ->).
    intros Hrest.
    destruct (IH _ _ Hrest) as (calls & Hlen & -> & ->).
    exists ((lib_ask dims rs seen, scores) :: calls).
    split; [simpl; by rewrite Hlen|].
    cbn [log fmap list_fmap]. by rewrite <- !app_assoc.
Qed.

(** Every point the optimizer has seen is one it asked for. *)
Lemma evaluations_points dims rs n seen w seen' :
  asks_in_space dims ->
  fst (evaluations (objective reg X y sp) dims rs n seen w) = Ok seen' ->
  Forall (fun p : point * Q => length (fst p) = length dims) seen ->
  Forall (fun p : point * Q => length (fst p) = length dims) seen'.
Proof.
  intros Hasks. revert seen w. induction n as [|n IH]; intros seen w.
  - by intros [= <-].
  - rewrite evaluations_S; cbv zeta.
    destruct (fst (fn_call (objective reg X y sp) (lib_ask dims rs seen) _))
      as [fx|e]; [|discriminate].
    intros Hrest Hseen. eapply IH; [exact Hrest|].
    apply Forall_app. split; [exact Hseen|].
    apply Forall_singleton. apply Hasks.
Qed.

End Whole.

Lemma best_elem (h : point * Q) (t : list (point * Q)) : best h t ∈ h :: t.
Proof.
  unfold best. revert h. induction t as [|c t IH]; intros h; simpl.
  - apply list_elem_of_here.
  - destruct (Qle_bool (snd h) (snd c)).
    + specialize (IH h). apply elem_of_cons in IH as [->|IH].
      * apply list_elem_of_here.
      * by do 2 apply list_elem_of_further.
    + apply list_elem_of_further, IH.
Qed.

Section Extra.

Context {L : Library}.



Lemma create_result_spec (seen : list (point * Q)) (res : OptimizeResult) :
  create_result seen = Ok res ->
  x_iters res = fst <$> seen /\
  func_vals res = snd <$> seen /\
  res_x res ∈ fst <$> seen.
Proof.
  destruct seen as [|h t]; [discriminate|]. intros [= <-].
  split; [reflexivity|]. split; [reflexivity|].
  cbn [res_x]. apply (list_elem_of_fmap_2 fst), best_elem.
Qed.

(** The optimizer, when it returns: its calls are complete calls of the
    objective, as many as its budget; its result records their points and
    values, and its best point is one of them. *)
Lemma gp_minimize_complete reg X y sp dims n_calls rs w res :
  fst (gp_minimize (objective reg X y sp) dims n_calls rs w) = Ok res ->
  exists calls : list (point * list Q),
    length calls = Z.to_nat n_calls /\
    x_iters res = fst <$> calls /\
    func_vals res = (fun c => (- mean (snd c))%Q) <$> calls /\
    res_x res ∈ x_iters res /\
    log (snd (gp_minimize (objective reg X y sp) dims n_calls rs w))
      = log w ++ [CallGpMinimize "objective" dims n_calls rs
                    (evaluation_event reg X y sp <$> calls)].
Proof.
  rewrite gp_minimize_run; cbv zeta.
  destruct (fst (evaluations _ dims rs (Z.to_nat n_calls) [] _))
    as [seen|e] eqn:Hrun; [|discriminate].
  destruct (evaluations_complete _ _ _ _ _ _ _ _ _ _ Hrun)
    as (calls & Hlen & -> & ->).
  cbn [fst snd log app]. intros Hres.
  destruct (create_result_spec _ _ Hres) as (Hx & Hf & Hbest).
  exists calls. split; [exact Hlen|].
  split; [by rewrite Hx, <- list_fmap_compose|].
  split; [by rewrite Hf, <- list_fmap_compose|].
  split; [by rewrite Hx|reflexivity].
Qed.

(** X2.  When the optimizer asks for points of its space, the printout
    reads the best point whole: [res_gp.x] has five coordinates, so none of
    the reads [res_gp.x[0]] to [res_gp.x[4]] raises, the parameters printed
    are [res_gp.x], in the order of the names of the space, and after the
    printout only the plot is left to do. *)
Theorem printout_reads_best_point (reg : loc) (X y : ndarray)
    (n_features n_calls rs : Z) (w w' : world) (res : OptimizeResult) :
  asks_in_space (space n_features) ->
  gp_minimize (objective reg X y (space n_features)) (space n_features)
    n_calls rs w = (Ok res, w') ->
  length (res_x res) = 5%nat /\
  report res w' =
    (lib_plot_convergence res,
     {| heap := heap w';
        log := log w'
               ++ [ Display (Percent best_score [VFloat (res_fun res)]);
                    CallPrint (Percent best_parameters (res_x res));
                    CallPlotConvergence res ] |}).
Proof.
  intros Hasks Hrun.
  assert (Hlen : length (res_x res) = 5%nat).
  { assert (Hres := f_equal fst Hrun). cbn [fst] in Hres.
    destruct (gp_minimize_complete _ _ _ _ _ _ _ _ _ Hres)
      as (calls & _ & _ & _ & Hbest & _).
    rewrite gp_minimize_run in Hres; cbv zeta in Hres.
    destruct (fst (evaluations _ _ rs (Z.to_nat n_calls) [] _))
      as [seen|e] eqn:Hev; [|discriminate].
    cbn [fst] in Hres.
    pose proof (evaluations_points _ _ _ _ _ _ _ _ _ _ Hasks Hev
                  (Forall_nil_2 _)) as Hpoints.
    rewrite (create_result_evaluations _ _ Hres) in Hbest.
    apply list_elem_of_fmap in Hbest as (p & -> & Hp).
    rewrite Forall_forall in Hpoints. by rewrite (Hpoints p Hp). }
  split; [exact Hlen|].
  rewrite report_run.
  by destruct (res_x res) as [|x0 [|x1 [|x2 [|x3 [|x4 [|x5 rest]]]]]].
Qed.

(** X3.  A run of the notebook that comes to its end has made fifty
    complete evaluations: under the one call of the optimizer there are
    fifty calls of the objective, each with its [set_params], its
    cross-validation and its mean; the points and values the optimizer's
    result records are those of these calls, in order. *)
Theorem finished_run_is_fifty_evaluations (w : world) :
  fst (notebook w) = Ok tt ->
  exists (boston : Bunch) (n_features : Z) (res : OptimizeResult)
         (calls : list (point * list Q)),
    lib_load_boston = Ok boston /\
    shape (data boston) !! 1%nat = Some n_features /\
    length calls = 50%nat /\
    x_iters res = fst <$> calls /\
    func_vals res = (fun c => (- mean (snd c))%Q) <$> calls /\
    log (snd (notebook w))
      = log w
        ++ notebook_calls n_features
             (evaluation_event (length (heap w)) (data boston)
                (target boston) (space n_features) <$> calls)
             res (take 5 (res_x res)).
Proof.
  rewrite notebook_run.
  destruct lib_load_boston as [boston|e] eqn:Hb; [|discriminate].
  destruct (shape (data boston) !! 1%nat) as [n_features|] eqn:Hn;
    [|discriminate].
  destruct (lib_GradientBoostingRegressor reg_kwargs) as [o|e];
    [|discriminate].
  cbv zeta.
  match goal with |- context [gp_minimize ?f ?d ?n ?r ?w3] =>
    destruct (fst (gp_minimize f d n r w3)) as [res|e] eqn:Hres;
      [|discriminate];
    destruct (gp_minimize_complete _ _ _ _ _ _ _ _ _ Hres)
      as (calls & Hlen & Hx & Hf & _ & Hlog)
  end.
  rewrite report_run.
  destruct (res_x res) as [|x0 [|x1 [|x2 [|x3 [|x4 rest]]]]] eqn:Hrx;
    try discriminate.
  cbn [fst snd log]. intros _.
  exists boston, n_features, res, calls.
  split; [reflexivity|]. split; [exact Hn|]. split; [exact Hlen|].
  split; [exact Hx|]. split; [exact Hf|].
  rewrite Hlog, Hrx. cbn [log]. unfold notebook_calls.
  rewrite <- !app_assoc. reflexivity.
Qed.

End Extra.

(** ** The value of the objective and the errors of the folds *)



Section Bounds.

Context {L : Library}.

Variables (reg : loc) (X y : ndarray) (sp : list Dimension).


(** X5.  The objective does not undo what it has set: when [set_params]
    returned and the cross-validation raises, the call raises that exception
    and the estimator keeps the configuration of the failed call. *)
Theorem failed_evaluation_keeps_configuration (x : point) (w : world)
    (o : gmap string value) (e : exn) :
  set_params_sets ->
  cross_val_score_clones ->
  heap w !! reg = Some o ->
  snd (set_at sp o x) = Ok tt ->
  snd (cv_at X y sp o x) = Raise e ->
  fst (fn_call (objective reg X y sp) x w) = Raise e /\
  exists o' : gmap string value,
    heap (snd (fn_call (objective reg X y sp) x w)) !! reg = Some o' /\
    arg_dict sp x ⊆ o'.
Proof.
  intros Hsets Hclones Hreg Hset Hcv.
  rewrite (objective_run reg X y sp x w o Hreg), Hset, Hcv. cbn [fst snd heap].
  split; [reflexivity|].
  eexists. split; [eapply lookup_store, lookup_store, Hreg|].
  unfold cv_at. rewrite Hclones. by apply Hsets.
Qed.

End Bounds.

Section Untouched.

Context {L : Library}.

Variables (reg : loc) (X y : ndarray).

Lemma arg_dict_not_named (dimensions : list Dimension) (x : point)
    (k : string) :
  k ∉ name <$> dimensions ->
  arg_dict dimensions x !! k = None.
Proof.
  intros Hk. unfold arg_dict. rewrite foldl_insert_notin; [done|].
  intros Hin. apply Hk.
  apply list_elem_of_fmap in Hin as ([k' v] & -> & Hin).
  by apply elem_of_zip_l in Hin.
Qed.

(** X6.  Tuning leaves the other parameters of the estimator alone: after
    any calls of the objective at configurations of the space, an attribute
    whose name is not one of the five of the space, such as [n_estimators]
    or [random_state], has the value the estimator was constructed with.
    ([set_params] overwriting what it is given and cross-validation fitting
    clones.) *)
Theorem tuning_keeps_other_parameters (n_features : Z) (xs : list point)
    (w : world) (o0 : gmap string value) (k : string) :
  set_params_overwrites (space n_features) ->
  cross_val_score_clones ->
  Forall (fun x : point => length x = 5%nat) xs ->
  heap w !! reg = Some o0 ->
  k ∉ [ "max_depth"; "learning_rate"; "max_features"; "min_samples_split";
        "min_samples_leaf" ] ->
  exists o' : gmap string value,
    heap (after (objective reg X y (space n_features)) xs w) !! reg = Some o' /\
    o' !! k = o0 !! k.
Proof.
  intros Hover Hclones Hxs Hreg Hk.
  destruct (after_overwrites reg X y (space n_features) xs w o0 o0
              Hover Hclones Hxs Hreg) as (o' & Hreg' & Hsame); [done|].
  exists o'. split; [exact Hreg'|].
  pose proof (Hsame (replicate 5 (VInt 0)) eq_refl) as Heq.
  apply (f_equal (fun m : gmap string value => m !! k)) in Heq.
  rewrite !lookup_union, arg_dict_not_named in Heq
    by (by rewrite space_names).
  by rewrite !(left_id_L None _) in Heq.
Qed.

End Untouched.

(** ** The further properties on the stand-in library *)

Lemma toy_asks_in_space (n_features : Z) :
  asks_in_space (L := toy) (space n_features).
Proof. intros rs seen. reflexivity. Qed.

Lemma printout_reads_best_point_witness :
  length (res_x (match fst toy_run with Ok res => res | Raise _ => no_result
                 end)) = 5%nat.
Proof.
  apply (printout_reads_best_point (L := toy) 0%nat (data toy_boston)
           (target toy_boston) 13 5 0 toy_world (snd toy_run)).
  - apply toy_asks_in_space.
  - vm_compute; reflexivity.
Defined.

Lemma finished_run_is_fifty_evaluations_witness :
  exists (res : OptimizeResult) (calls : list (point * list Q)),
    length calls = 50%nat /\
    x_iters res = fst <$> calls /\
    log (snd (notebook (L := toy) empty_world))
      = notebook_calls 13
          (evaluation_event 0%nat (data toy_boston) (target toy_boston)
             (space 13) <$> calls)
          res (take 5 (res_x res)).
Proof.
  destruct (finished_run_is_fifty_evaluations (L := toy) empty_world)
    as (boston & n & res & calls & Hb & Hn & Hlen & Hx & _ & Hlog);
    [vm_compute; reflexivity|].
  injection Hb as <-. injection Hn as <-.
  exists res, calls. split; [exact Hlen|]. split; [exact Hx|exact Hlog].
Defined.


Lemma failed_evaluation_keeps_configuration_witness :
  let f := objective (L := toy) 0%nat (data toy_boston) (target toy_boston)
             (space 13) in
  fst (fn_call f (toy_point 0) toy_world)
    = Raise (Exception "ValueError" "max_depth must be greater than zero") /\
  exists o' : gmap string value,
    heap (snd (fn_call f (toy_point 0) toy_world)) !! 0%nat = Some o' /\
    arg_dict (space 13) (toy_point 0) ⊆ o'.
Proof.
  apply (failed_evaluation_keeps_configuration (L := toy) 0%nat
           (data toy_boston) (target toy_boston) (space 13) (toy_point 0)
           toy_world toy_reg).
  - apply toy_set_params_sets.
  - apply toy_cross_val_score_clones.
  - reflexivity.
  - vm_compute; reflexivity.
  - vm_compute; reflexivity.
Defined.

Lemma tuning_keeps_other_parameters_witness :
  exists o' : gmap string value,
    heap (after (objective (L := toy) 0%nat (data toy_boston)
                   (target toy_boston) (space 13))
            [toy_point 1; toy_point 4] toy_world) !! 0%nat = Some o' /\
    o' !! "n_estimators" = toy_reg !! "n_estimators".
Proof.
  apply (tuning_keeps_other_parameters (L := toy) 0%nat (data toy_boston)
           (target toy_boston) 13 [toy_point 1; toy_point 4] toy_world
           toy_reg "n_estimators").
  - apply toy_set_params_overwrites.
  - apply toy_cross_val_score_clones.
  - repeat constructor.
  - reflexivity.
  - apply (bool_decide_unpack (_ ∉ _)). vm_compute. exact I.
Defined.
